(** * GPU object picking: a model of [ThreeDeeRender/Picker.ts]

    The picker renders object identifiers as colours into a small offscreen
    target around the sample point and decodes the pixel under the pointer.
    This development embeds the numeric kernels of that file (the
    identifier/colour codec, the debug hash, the window arithmetic) and the
    stateful protocol around them (render-state save and restore, the
    material cache, the per-item pass) and proves properties of them. *)

From Stdlib Require Import ZArith QArith Qround Lia.
From stdpp Require Import gmap strings list fin_maps functions.

Local Open Scope Z_scope.
Set Warnings "-clear-no-such-hyp".

(** ** JavaScript numbers

    Identifiers and bytes are integers, modelled in [Z].  The bitwise
    operators of JavaScript first convert their operands to 32-bit integers;
    the wrap-around is written out below. *)

Module Js.

(** [ToInt32]: the operand of [<<], [>>], [&], [|] and [^]. *)
Definition toInt32 (z : Z) : Z := (z + 2 ^ 31) mod 2 ^ 32 - 2 ^ 31.

(** [ToUint32]: the operand of [>>>] and the value kept by a
    [Uint32Array] cell. *)
Definition toUint32 (z : Z) : Z := z mod 2 ^ 32.

(** [a << n] *)
Definition shl (a n : Z) : Z := toInt32 (Z.shiftl (toInt32 a) n).

(** [a >> n], the sign-propagating shift *)
Definition sar (a n : Z) : Z := Z.shiftr (toInt32 a) n.

(** [a >>> n], the zero-filling shift *)
Definition shr (a n : Z) : Z := Z.shiftr (toUint32 a) n.

(** [a & b] *)
Definition band (a b : Z) : Z := Z.land (toInt32 a) (toInt32 b).

(** [a | b] *)
Definition bor (a b : Z) : Z := Z.lor (toInt32 a) (toInt32 b).

(** [a ^ b] *)
Definition bxor (a b : Z) : Z := Z.lxor (toInt32 a) (toInt32 b).

(** A number that may be [NaN]: what an arithmetic expression over
    possibly [undefined] operands evaluates to. *)
Inductive number : Type :=
| Num (z : Z)
| NaN.

(** The value read from a typed array: a byte, or [undefined] when the
    index is not an integer inside the array. *)
Definition element := option Z.

(** [v << n] for an array element; [undefined] converts to [0]. *)
Definition shl_element (v : element) (n : Z) : Z :=
  match v with
  | Some z => shl z n
  | None => 0
  end.

(** [a + v] for a number [a] and an array element [v]; [undefined]
    converts to [NaN]. *)
Definition add_element (a : Z) (v : element) : number :=
  match v with
  | Some z => Num (a + z)
  | None => NaN
  end.

(** [Math.max(a, b)] and [Math.min(a, b)] on exact rationals. *)
Definition max (a b : Q) : Q := if Qle_bool a b then b else a.
Definition min (a b : Q) : Q := if Qle_bool a b then a else b.

(** Whether a rational is an integer, and its integer value. *)
Definition isInteger (q : Q) : bool := (Qnum q mod Z.pos (Qden q) =? 0).
Definition toZ (q : Q) : Z := Qnum q / Z.pos (Qden q).

(** [buf[i]] on a [Uint8Array]. *)
Definition typedArrayGet (buf : list Z) (i : Q) : element :=
  if isInteger i && (0 <=? toZ i) then buf !! Z.to_nat (toZ i) else None.

End Js.

(** ** The identifier codec and the debug hash *)

(** The width and height of the output viewport. *)
Definition PIXEL_WIDTH : Z := 9.

(** The four byte values whose quotients by 255 [processItem] stores in the
    [objectId] uniform: [(objId >> 24) & 255], ..., [objId & 255]. *)
Definition objectIdBytes (objId : Z) : list Z :=
  [ Js.band (Js.sar objId 24) 255;
    Js.band (Js.sar objId 16) 255;
    Js.band (Js.sar objId 8) 255;
    Js.band objId 255 ].

(** The uniform value itself: each byte divided by 255. *)
Definition objectIdUniform (objId : Z) : list Q :=
  (fun b => inject_Z b / 255)%Q <$> objectIdBytes objId.

(** The 8-bit normalised store of a colour channel by the colour buffer:
    clamp to [0, 1], scale by 255, round to nearest. *)
Definition quantize8 (c : Q) : Z :=
  Z.max 0 (Z.min 255 (Qfloor (c * 255 + (1 # 2))%Q)).

(** The value [pick] decodes at index [offset] of the readback buffer. *)
Definition decodeAt (pixelBuffer : list Z) (offset : Q) : Js.number :=
  Js.add_element
    (Js.shl_element (Js.typedArrayGet pixelBuffer (offset + 0)%Q) 24 +
     Js.shl_element (Js.typedArrayGet pixelBuffer (offset + 1)%Q) 16 +
     Js.shl_element (Js.typedArrayGet pixelBuffer (offset + 2)%Q) 8)
    (Js.typedArrayGet pixelBuffer (offset + 3)%Q).

(** [hashInt]: remaps identifiers to pseudo-random 32-bit integers through
    the one-cell [Uint32Array] [A]. *)
Definition hashInt (x : Z) : Z :=
  let a := Js.toUint32 (Js.bor x 0) in
  let a := Js.toUint32 (a - Js.shl a 6) in
  let a := Js.toUint32 (Js.bxor a (Js.shr a 17)) in
  let a := Js.toUint32 (a - Js.shl a 9) in
  let a := Js.toUint32 (Js.bxor a (Js.shl a 4)) in
  let a := Js.toUint32 (a - Js.shl a 3) in
  let a := Js.toUint32 (Js.bxor a (Js.shl a 10)) in
  let a := Js.toUint32 (Js.bxor a (Js.shr a 15)) in
  a.

(** ** Scene-graph and renderer objects

    The objects of the scene-graph library that [Picker] reads and writes.
    Mutable materials live in a store and are named by references, so that
    two draw items can share one material instance. *)

Record Color : Type := mkColor { col_r : Q; col_g : Q; col_b : Q }.

(** [new THREE.Color(0xffffff)] *)
Definition WHITE_COLOR : Color := mkColor 1 1 1.

Definition MatRef : Type := nat.

(** The [value] of a uniform. *)
Inductive UniformValue : Type :=
| UArray (v : list Q)
| UNaN4
| UNumber (q : Q)
| UVector2 (x y : Q).

Record ShaderMaterial : Type := mkShaderMaterial {
  vertexShader : string;
  fragmentShader : string;
  doubleSide : bool;
  uniforms : gmap string UniformValue;
  uniformsNeedUpdate : bool;
  mat_disposed : bool
}.

Definition set_uniform (name : string) (v : UniformValue) (m : ShaderMaterial)
  : ShaderMaterial :=
  mkShaderMaterial (vertexShader m) (fragmentShader m) (doubleSide m)
    (<[name := v]> (uniforms m)) (uniformsNeedUpdate m) (mat_disposed m).

Definition set_uniformsNeedUpdate (b : bool) (m : ShaderMaterial) : ShaderMaterial :=
  mkShaderMaterial (vertexShader m) (fragmentShader m) (doubleSide m)
    (uniforms m) b (mat_disposed m).

(** [material.dispose()] *)
Definition material_dispose (m : ShaderMaterial) : ShaderMaterial :=
  mkShaderMaterial (vertexShader m) (fragmentShader m) (doubleSide m)
    (uniforms m) (uniformsNeedUpdate m) true.

(** The fields of a [THREE.Object3D] that [processItem] reads.
    [obj_picking] is [userData.picking] ([None] when undefined) and
    [obj_pickingMaterial] is [userData.pickingMaterial]. *)
Record Object3D : Type := mkObject3D {
  obj_id : Z;
  obj_picking : option bool;
  obj_pickingMaterial : option MatRef;
  obj_isInstancedMesh : bool;
  obj_center : Q * Q
}.

(** The fields of the item's own material that [processItem] reads. *)
Record Material : Type := mkMaterial {
  mat_type : string;
  mat_sizeAttenuation : bool;
  mat_rotation : Q
}.

Definition BufferGeometry : Type := nat.

Record RenderItem : Type := mkRenderItem {
  object : Object3D;
  material : Material;
  geometry : option BufferGeometry
}.

Record RenderList : Type := mkRenderList {
  opaque : list RenderItem;
  transmissive : list RenderItem;
  transparent : list RenderItem
}.

(** The arguments of [camera.setViewOffset]. *)
Record ViewOffset : Type := mkViewOffset {
  fullWidth : Z; fullHeight : Z;
  offsetX : Q; offsetY : Q;
  viewWidth : Z; viewHeight : Z
}.

Record Camera : Type := mkCamera { view : option ViewOffset }.

Record WebGLRenderTarget : Type := mkRenderTarget {
  rt_id : nat;
  rt_width : Z;
  rt_height : Z;
  rt_disposed : bool
}.

(** [target.dispose()] *)
Definition target_dispose (t : WebGLRenderTarget) : WebGLRenderTarget :=
  mkRenderTarget (rt_id t) (rt_width t) (rt_height t) true.

(** The contents of a render target: RGBA bytes, row after row, and the
    depth of each pixel. *)
Record FrameBuffer : Type := mkFrameBuffer {
  fb_color : list Z;
  fb_depth : list Q
}.

(** One [renderBufferDirect] submission, as the renderer counts them. *)
Record DrawCall : Type := mkDrawCall {
  dc_object : Z;
  dc_material : MatRef;
  dc_objectId : option UniformValue
}.

(** The renderer state [Picker] touches.  [renderTarget] is [None] for the
    canvas; [framebuffers] gives the contents of each target by its id, and
    [renderLists] the draw-item lists of each scene. *)
Record WebGLRenderer : Type := mkRenderer {
  pixelRatio : Q;
  domElement_width : Z;
  domElement_height : Z;
  renderTarget : option WebGLRenderTarget;
  clearColor : Color;
  clearAlpha : Q;
  renderLists : nat -> RenderList;
  framebuffers : option nat -> FrameBuffer;
  drawCalls : list DrawCall
}.

Definition gl_setRenderTarget (t : option WebGLRenderTarget) (gl : WebGLRenderer)
  : WebGLRenderer :=
  mkRenderer (pixelRatio gl) (domElement_width gl) (domElement_height gl)
    t (clearColor gl) (clearAlpha gl) (renderLists gl) (framebuffers gl)
    (drawCalls gl).

(** [gl.setClearColor(color, alpha)]; [alpha] defaults to [1]. *)
Definition gl_setClearColor (c : Color) (alpha : Q) (gl : WebGLRenderer)
  : WebGLRenderer :=
  mkRenderer (pixelRatio gl) (domElement_width gl) (domElement_height gl)
    (renderTarget gl) c alpha (renderLists gl) (framebuffers gl) (drawCalls gl).

Definition gl_setClearAlpha (alpha : Q) (gl : WebGLRenderer) : WebGLRenderer :=
  mkRenderer (pixelRatio gl) (domElement_width gl) (domElement_height gl)
    (renderTarget gl) (clearColor gl) alpha (renderLists gl) (framebuffers gl)
    (drawCalls gl).

Definition gl_setFramebuffers (f : option nat -> FrameBuffer)
  (calls : list DrawCall) (gl : WebGLRenderer) : WebGLRenderer :=
  mkRenderer (pixelRatio gl) (domElement_width gl) (domElement_height gl)
    (renderTarget gl) (clearColor gl) (clearAlpha gl) (renderLists gl) f calls.

Definition gl_setRenderLists (f : nat -> RenderList) (gl : WebGLRenderer)
  : WebGLRenderer :=
  mkRenderer (pixelRatio gl) (domElement_width gl) (domElement_height gl)
    (renderTarget gl) (clearColor gl) (clearAlpha gl) f (framebuffers gl)
    (drawCalls gl).

(** The id of the bound target and its number of pixels. *)
Definition boundTarget (gl : WebGLRenderer) : option nat :=
  rt_id <$> renderTarget gl.

Definition boundPixels (gl : WebGLRenderer) : nat :=
  match renderTarget gl with
  | Some t => Z.to_nat (rt_width t * rt_height t)
  | None => Z.to_nat (domElement_width gl * domElement_height gl)
  end.

(** The bytes a cleared pixel holds. *)
Definition clearBytes (c : Color) (alpha : Q) : list Z :=
  quantize8 <$> [col_r c; col_g c; col_b c; alpha].

(** [gl.clear()]: every pixel of the bound target takes the clear colour
    and the far depth. *)
Definition gl_clear (gl : WebGLRenderer) : WebGLRenderer :=
  let n := boundPixels gl in
  let fb := mkFrameBuffer
              (mjoin (replicate n (clearBytes (clearColor gl) (clearAlpha gl))))
              (replicate n 1%Q) in
  gl_setFramebuffers (<[boundTarget gl := fb]> (framebuffers gl)) (drawCalls gl) gl.

(** Copy [src] over the front of the fixed-length array [dst]. *)
Definition blit (src dst : list Z) : list Z :=
  take (length dst) src ++ drop (length src) dst.

(** [gl.readRenderTargetPixels(target, 0, 0, w, h, buffer)] *)
Definition gl_readRenderTargetPixels (gl : WebGLRenderer) (t : WebGLRenderTarget)
  (w h : Z) (buffer : list Z) : list Z :=
  blit (take (Z.to_nat (4 * w * h)) (fb_color (framebuffers gl (Some (rt_id t)))))
       buffer.

(** ** The picker *)

(** The fields of the [Picker] class.  [scene] names the live scene in the
    renderer's [renderLists]; [materials] is the store the material
    references of the cache and of the draw items point into, and
    [nextMaterial] the reference the next [new THREE.ShaderMaterial] gets. *)
Record Picker : Type := mkPicker {
  gl : WebGLRenderer;
  scene : nat;
  camera : Camera;
  shouldPickObjectCB : Object3D -> bool;
  materialCache : gmap Z MatRef;
  pixelBuffer : list Z;
  currClearColor : Color;
  pickingTarget : WebGLRenderTarget;
  debug : bool;
  isDebugPass : bool;
  materials : MatRef -> ShaderMaterial;
  nextMaterial : MatRef
}.

Definition set_gl (v : WebGLRenderer) (p : Picker) : Picker :=
  mkPicker v (scene p) (camera p) (shouldPickObjectCB p) (materialCache p)
    (pixelBuffer p) (currClearColor p) (pickingTarget p) (debug p)
    (isDebugPass p) (materials p) (nextMaterial p).

Definition set_camera (v : Camera) (p : Picker) : Picker :=
  mkPicker (gl p) (scene p) v (shouldPickObjectCB p) (materialCache p)
    (pixelBuffer p) (currClearColor p) (pickingTarget p) (debug p)
    (isDebugPass p) (materials p) (nextMaterial p).

Definition set_shouldPickObjectCB (v : Object3D -> bool) (p : Picker) : Picker :=
  mkPicker (gl p) (scene p) (camera p) v (materialCache p)
    (pixelBuffer p) (currClearColor p) (pickingTarget p) (debug p)
    (isDebugPass p) (materials p) (nextMaterial p).

Definition set_materialCache (v : gmap Z MatRef) (p : Picker) : Picker :=
  mkPicker (gl p) (scene p) (camera p) (shouldPickObjectCB p) v
    (pixelBuffer p) (currClearColor p) (pickingTarget p) (debug p)
    (isDebugPass p) (materials p) (nextMaterial p).

Definition set_pixelBuffer (v : list Z) (p : Picker) : Picker :=
  mkPicker (gl p) (scene p) (camera p) (shouldPickObjectCB p) (materialCache p)
    v (currClearColor p) (pickingTarget p) (debug p)
    (isDebugPass p) (materials p) (nextMaterial p).

Definition set_currClearColor (v : Color) (p : Picker) : Picker :=
  mkPicker (gl p) (scene p) (camera p) (shouldPickObjectCB p) (materialCache p)
    (pixelBuffer p) v (pickingTarget p) (debug p)
    (isDebugPass p) (materials p) (nextMaterial p).

Definition set_pickingTarget (v : WebGLRenderTarget) (p : Picker) : Picker :=
  mkPicker (gl p) (scene p) (camera p) (shouldPickObjectCB p) (materialCache p)
    (pixelBuffer p) (currClearColor p) v (debug p)
    (isDebugPass p) (materials p) (nextMaterial p).


Definition set_isDebugPass (v : bool) (p : Picker) : Picker :=
  mkPicker (gl p) (scene p) (camera p) (shouldPickObjectCB p) (materialCache p)
    (pixelBuffer p) (currClearColor p) (pickingTarget p) (debug p)
    v (materials p) (nextMaterial p).

Definition set_materials (v : MatRef -> ShaderMaterial) (p : Picker) : Picker :=
  mkPicker (gl p) (scene p) (camera p) (shouldPickObjectCB p) (materialCache p)
    (pixelBuffer p) (currClearColor p) (pickingTarget p) (debug p)
    (isDebugPass p) v (nextMaterial p).

Definition set_nextMaterial (v : MatRef) (p : Picker) : Picker :=
  mkPicker (gl p) (scene p) (camera p) (shouldPickObjectCB p) (materialCache p)
    (pixelBuffer p) (currClearColor p) (pickingTarget p) (debug p)
    (isDebugPass p) (materials p) v.

(** [const AlwaysPickObject = (_obj) => true] *)
Definition AlwaysPickObject (_obj : Object3D) : bool := true.

(** The constructor.  [targetId] is the identity of the render target it
    allocates and [store], [next] the material store it starts from. *)
Definition newPicker (gl0 : WebGLRenderer) (scene0 : nat) (camera0 : Camera)
  (options_debug : option bool) (targetId : nat)
  (store : MatRef -> ShaderMaterial) (next : MatRef) : Picker :=
  let target := mkRenderTarget targetId PIXEL_WIDTH PIXEL_WIDTH false in
  mkPicker gl0 scene0 camera0 AlwaysPickObject ∅
    (replicate (Z.to_nat (4 * rt_width target * rt_height target)) 0)
    (mkColor 1 1 1) target (default false options_debug) false store next.

(** *** Computations that may throw

    A method runs on the picker state and either returns or throws; the
    state reached at a [throw] is kept, as no handler rolls it back. *)

Inductive Result (A : Type) : Type :=
| Ok (a : A)
| Throw (msg : string).
Arguments Ok {A} a.
Arguments Throw {A} msg.

Definition M (A : Type) : Type := Picker -> Picker * Result A.

Definition ret {A : Type} (a : A) : M A := fun p => (p, Ok a).

Definition bind {A B : Type} (m : M A) (k : A -> M B) : M B :=
  fun p =>
    match m p with
    | (p', Ok a) => k a p'
    | (p', Throw msg) => (p', Throw msg)
    end.

Definition modify (f : Picker -> Picker) : M unit := fun p => (f p, Ok tt).

Definition throw {A : Type} (msg : string) : M A := fun p => (p, Throw msg).

#[global] Instance M_ret : MRet M := @ret.
#[global] Instance M_bind : MBind M := fun A B k m => bind m k.

(** [list.forEach(f)] *)
Fixpoint forEach {A : Type} (f : A -> M unit) (l : list A) : M unit :=
  match l with
  | [] => ret tt
  | a :: l' => f a;; forEach f l'
  end.

(** [dispose()] *)
Definition dispose : M unit :=
  fun p =>
    let store :=
      foldr (fun r st => <[r := material_dispose (st r)]> st) (materials p)
            ((map_to_list (materialCache p)).*2) in
    let p := set_materials store p in
    let p := set_materialCache ∅ p in
    let p := set_pickingTarget (target_dispose (pickingTarget p)) p in
    (p, Ok tt).

(** *** The per-item pass *)

(** The three feature tests of [processItem], as [0] or [1]. *)
Definition useInstancing (item : RenderItem) : Z :=
  if obj_isInstancedMesh (object item) then 1 else 0.

Definition sprite (item : RenderItem) : Z :=
  if String.eqb (mat_type (material item)) "SpriteMaterial" then 1 else 0.

Definition sizeAttenuation (item : RenderItem) : Z :=
  if mat_sizeAttenuation (material item) then 1 else 0.

(** [(useInstancing << 0) | (sprite << 1) | (sizeAttenuation << 2)] *)
Definition cacheIndex (item : RenderItem) : Z :=
  Js.bor (Js.bor (Js.shl (useInstancing item) 0) (Js.shl (sprite item) 1))
         (Js.shl (sizeAttenuation item) 2).

(** The guard at the head of [processItem]. *)
Definition skipped (shouldPick : Object3D -> bool) (item : RenderItem) : bool :=
  negb (bool_decide (is_Some (geometry item)))
  || bool_decide (obj_picking (object item) = Some false)
  || negb (shouldPick (object item)).

(** A render list without the items the guard skips. *)
Definition withoutSkipped (shouldPick : Object3D -> bool) (rl : RenderList)
  : RenderList :=
  mkRenderList
    (filter (fun item => skipped shouldPick item = false) (opaque rl))
    (filter (fun item => skipped shouldPick item = false) (transmissive rl))
    (filter (fun item => skipped shouldPick item = false) (transparent rl)).

(** [isDebugPass ? hashInt(object.id) : object.id] *)
Definition objId (p : Picker) (item : RenderItem) : Z :=
  if isDebugPass p then hashInt (obj_id (object item)) else obj_id (object item).

Definition newline : string := String (Ascii.ascii_of_nat 10) EmptyString.

(** The fragment stage of the encode material, as the template literal of
    [processItem] spells it. *)
Definition encodeFragmentShader : string :=
  newline +:+
  "           uniform vec4 objectId;" +:+ newline +:+
  "           void main() {" +:+ newline +:+
  "             gl_FragColor = objectId;" +:+ newline +:+
  "           }" +:+ newline +:+
  "         ".

(** [const hw = Math.floor(PIXEL_WIDTH / 2)] *)
Definition hw : Z := PIXEL_WIDTH / 2.

(** [Math.max(0, x * pixelRatio - hw)]: the origin of the sampling window
    on one axis. *)
Definition windowOrigin (ratio x : Q) : Q :=
  Js.max 0 (x * ratio - inject_Z hw)%Q.

(** [(yo * PIXEL_WIDTH + xo) * 4] with [xo = Math.min(hw, xi)] and
    [yo = Math.min(hw, yi)]: the index in the readback buffer of the pixel
    under the pointer. *)
Definition sampleOffset (xi yi : Q) : Q :=
  let xo := Js.min (inject_Z hw) xi in
  let yo := Js.min (inject_Z hw) yi in
  ((yo * inject_Z PIXEL_WIDTH + xo) * 4)%Q.

(** ** Sample scenes

    Concrete renderers, items and pickers on which the picker is
    evaluated. *)

Module Sample.

(** A rasteriser for objects that cover the whole window: every pixel of
    the bound target takes the colour of the [objectId] uniform. *)
Definition paintAll (_ : Camera) (_ : BufferGeometry) (m : ShaderMaterial)
  (_ : Object3D) (fb : FrameBuffer) : FrameBuffer :=
  match uniforms m !! "objectId" with
  | Some (UArray v) =>
      mkFrameBuffer (mjoin (replicate (length (fb_depth fb)) (quantize8 <$> v)))
                    (fb_depth fb)
  | _ => fb
  end.

(** A material without uniforms. *)
Definition bareMaterial : ShaderMaterial :=
  mkShaderMaterial "" "" false ∅ false false.

(** A plain mesh, a mesh that opts out of picking, a mesh that brings its
    own picking material, a sprite and a point cloud. *)
Definition mesh (id : Z) : RenderItem :=
  mkRenderItem (mkObject3D id None None false (0, 0)%Q)
    (mkMaterial "MeshBasicMaterial" false 0) (Some 0%nat).

Definition optOut (id : Z) : RenderItem :=
  mkRenderItem (mkObject3D id (Some false) None false (0, 0)%Q)
    (mkMaterial "MeshBasicMaterial" false 0) (Some 0%nat).

Definition custom (id : Z) (r : MatRef) : RenderItem :=
  mkRenderItem (mkObject3D id None (Some r) false (0, 0)%Q)
    (mkMaterial "MeshBasicMaterial" false 0) (Some 0%nat).

Definition spriteItem (id : Z) : RenderItem :=
  mkRenderItem (mkObject3D id None None false (1 # 2, 1 # 2)%Q)
    (mkMaterial "SpriteMaterial" false (1 # 4)) (Some 1%nat).

Definition points (id : Z) : RenderItem :=
  mkRenderItem (mkObject3D id None None false (0, 0)%Q)
    (mkMaterial "PointsMaterial" true 0) (Some 2%nat).

(** A renderer drawing to an 800 x 600 canvas with a black, transparent
    clear colour, whose opaque list holds [items]. *)
Definition renderer (items : list RenderItem) : WebGLRenderer :=
  mkRenderer 1 800 600 None (mkColor 0 0 0) 0
    (fun _ => mkRenderList items [] [])
    (fun _ => mkFrameBuffer [] []) [].

(** A fresh picker over that renderer; every material reference of the
    store starts as [bareMaterial]. *)
Definition picker (items : list RenderItem) (dbg : bool) : Picker :=
  newPicker (renderer items) 0%nat (mkCamera None) (Some dbg) 1%nat
    (fun _ => bareMaterial) 0%nat.

End Sample.

Section PickerMethods.

(** [THREE.ShaderChunk.meshbasic_vert] and [THREE.ShaderChunk.sprite_vert],
    the vertex stages of the scene-graph library. *)
Variable meshbasic_vert sprite_vert : string.

(** The rasteriser of the renderer: what drawing a geometry with a
    material through a camera does to the bound target. *)
Variable rasterize :
  Camera -> BufferGeometry -> ShaderMaterial -> Object3D ->
  FrameBuffer -> FrameBuffer.

(** [gl.renderBufferDirect(camera, null, geometry, material, object, null)] *)
Definition gl_renderBufferDirect (cam : Camera) (geo : BufferGeometry)
  (r : MatRef) (mat : ShaderMaterial) (obj : Object3D)
  (g : WebGLRenderer) : WebGLRenderer :=
  let t := boundTarget g in
  gl_setFramebuffers
    (<[t := rasterize cam geo mat obj (framebuffers g t)]> (framebuffers g))
    (drawCalls g ++ [mkDrawCall (obj_id obj) r (uniforms mat !! "objectId")])
    g.

(** The encode material built on a cache miss. *)
Definition newEncodeMaterial (item : RenderItem) : ShaderMaterial :=
  let vs := meshbasic_vert in
  let vs := if sprite item =? 1 then sprite_vert else vs in
  let vs := if sizeAttenuation item =? 1
            then "#define USE_SIZEATTENUATION" +:+ newline +:+ newline +:+ vs
            else vs in
  mkShaderMaterial vs encodeFragmentShader true {["objectId" := UNaN4]}
    false false.

(** The choice of [renderMaterial]:
    [pickingMaterial ?? this.materialCache.get(index)], and on a miss a new
    material stored under [index]. *)
Definition selectMaterial (item : RenderItem) : M MatRef :=
  fun p =>
    match obj_pickingMaterial (object item) with
    | Some r => (p, Ok r)
    | None =>
        match materialCache p !! cacheIndex item with
        | Some r => (p, Ok r)
        | None =>
            let r := nextMaterial p in
            let p := set_materials (<[r := newEncodeMaterial item]> (materials p)) p in
            let p := set_nextMaterial (S r) p in
            let p := set_materialCache (<[cacheIndex item := r]> (materialCache p)) p in
            (p, Ok r)
        end
    end.

(** An assignment to fields of the material behind [r]. *)
Definition updateMaterial (r : MatRef) (f : ShaderMaterial -> ShaderMaterial)
  : M unit :=
  modify (fun p => set_materials (<[r := f (materials p r)]> (materials p)) p).

(** [renderMaterial.uniforms.rotation = ...; uniforms.center = ...] for a
    sprite. *)
Definition copySpriteUniforms (item : RenderItem) (r : MatRef) : M unit :=
  if sprite item =? 1
  then updateMaterial r (fun m =>
         set_uniform "center"
           (UVector2 (fst (obj_center (object item))) (snd (obj_center (object item))))
           (set_uniform "rotation" (UNumber (mat_rotation (material item))) m))
  else ret tt.

(** The check of the [objectId] uniform, the write of the identifier into
    it and the draw call. *)
Definition drawEncoded (item : RenderItem) (geo : BufferGeometry) (objId : Z)
  (r : MatRef) : M unit :=
  fun p =>
    match uniforms (materials p r) !! "objectId" with
    | None => throw "objectId uniform not found in picking material" p
    | Some _ =>
        let p := set_materials
                   (<[r := set_uniformsNeedUpdate true
                             (set_uniform "objectId" (UArray (objectIdUniform objId))
                                (materials p r))]> (materials p)) p in
        let p := set_gl (gl_renderBufferDirect (camera p) geo r (materials p r)
                           (object item) (gl p)) p in
        (p, Ok tt)
    end.

(** The part of [processItem] after the guard. *)
Definition encodeItem (item : RenderItem) (geo : BufferGeometry) (objId : Z)
  : M unit :=
  r ← selectMaterial item;
  copySpriteUniforms item r;;
  drawEncoded item geo objId r.

(** [processItem]: the guard, then the encoding and the draw. *)
Definition processItem (item : RenderItem) : M unit :=
  fun p =>
    let objId := objId p item in
    match geometry item with
    | None => (p, Ok tt)
    | Some geo =>
        if bool_decide (obj_picking (object item) = Some false)
           || negb (shouldPickObjectCB p (object item))
        then (p, Ok tt)
        else encodeItem item geo objId p
    end.

(** [handleAfterRender]: the [onAfterRender] hook of the empty scene. *)
Definition handleAfterRender : M unit :=
  fun p =>
    let renderList := renderLists (gl p) (scene p) in
    (forEach processItem (opaque renderList);;
     forEach processItem (transmissive renderList);;
     forEach processItem (transparent renderList)) p.

(** [gl.render(this.emptyScene, this.camera)]: the empty scene has nothing
    to draw, and a clear the renderer does on its own repeats
    [this.gl.clear()], so the call comes down to the [onAfterRender] hook of
    the scene. *)
Definition gl_render_emptyScene : M unit := handleAfterRender.

(** [pickDebugRender()] *)
Definition pickDebugRender : M unit :=
  fun p =>
    let p := set_isDebugPass true p in
    let currAlpha := clearAlpha (gl p) in
    let p := set_currClearColor (clearColor (gl p)) p in
    let p := set_gl (gl_setClearColor WHITE_COLOR 1 (gl p)) p in
    let p := set_gl (gl_setClearAlpha 1 (gl p)) p in
    let p := set_gl (gl_clear (gl p)) p in
    match gl_render_emptyScene p with
    | (p, Throw msg) => (p, Throw msg)
    | (p, Ok _) =>
        let p := set_gl (gl_setClearColor (currClearColor p) currAlpha (gl p)) p in
        let p := set_isDebugPass false p in
        (p, Ok tt)
    end.

(** [pick], up to and including [this.gl.clear()]. *)
Definition pickSetup (x y : Q) (shouldPickObject : Object3D -> bool)
  (p : Picker) : Picker :=
  let p := set_shouldPickObjectCB shouldPickObject p in
  let ratio := pixelRatio (gl p) in
  let xi := windowOrigin ratio x in
  let yi := windowOrigin ratio y in
  let w := domElement_width (gl p) in
  let h := domElement_height (gl p) in
  let p := set_camera (mkCamera (Some (mkViewOffset w h xi yi PIXEL_WIDTH PIXEL_WIDTH))) p in
  let p := set_currClearColor (clearColor (gl p)) p in
  let p := set_gl (gl_setRenderTarget (Some (pickingTarget p)) (gl p)) p in
  let p := set_gl (gl_setClearColor WHITE_COLOR 1 (gl p)) p in
  let p := set_gl (gl_setClearAlpha 1 (gl p)) p in
  let p := set_gl (gl_clear (gl p)) p in
  p.

(** [pick(x, y, shouldPickObject)] *)
Definition pick (x y : Q) (shouldPickObject : Object3D -> bool)
  : M Js.number :=
  fun p0 =>
    let ratio := pixelRatio (gl p0) in
    let xi := windowOrigin ratio x in
    let yi := windowOrigin ratio y in
    let currRenderTarget := renderTarget (gl p0) in
    let currAlpha := clearAlpha (gl p0) in
    let p := pickSetup x y shouldPickObject p0 in
    match gl_render_emptyScene p with
    | (p, Throw msg) => (p, Throw msg)
    | (p, Ok _) =>
        let p := set_pixelBuffer
                   (gl_readRenderTargetPixels (gl p) (pickingTarget p)
                      (rt_width (pickingTarget p)) (rt_height (pickingTarget p))
                      (pixelBuffer p)) p in
        let p := set_gl (gl_setRenderTarget currRenderTarget (gl p)) p in
        let p := set_gl (gl_setClearColor (currClearColor p) currAlpha (gl p)) p in
        let p := set_camera (mkCamera None) p in
        let val := decodeAt (pixelBuffer p) (sampleOffset xi yi) in
        if debug p
        then match pickDebugRender p with
             | (p, Throw msg) => (p, Throw msg)
             | (p, Ok _) => (p, Ok val)
             end
        else (p, Ok val)
    end.


(** *** Predicates on picker states *)

(** The material behind [r] has an [objectId] uniform. *)
Definition hasObjectId (p : Picker) (r : MatRef) : Prop :=
  is_Some (uniforms (materials p r) !! "objectId").

(** Every cached material has an [objectId] uniform. *)
Definition cache_ok (p : Picker) : Prop :=
  forall k r, materialCache p !! k = Some r -> hasObjectId p r.

(** The target and the readback buffer have the size the constructor
    gives them. *)
Definition sized (p : Picker) : Prop :=
  rt_width (pickingTarget p) = PIXEL_WIDTH /\
  rt_height (pickingTarget p) = PIXEL_WIDTH /\
  length (pixelBuffer p) = Z.to_nat (4 * PIXEL_WIDTH * PIXEL_WIDTH).

(** What the per-item pass leaves alone: everything but the material
    store, the cache, the contents of the render targets and the count of
    draw calls. *)
Record frame (p q : Picker) : Prop := mkFrame {
  frame_scene : scene q = scene p;
  frame_camera : camera q = camera p;
  frame_cb : shouldPickObjectCB q = shouldPickObjectCB p;
  frame_pixelBuffer : pixelBuffer q = pixelBuffer p;
  frame_currClearColor : currClearColor q = currClearColor p;
  frame_pickingTarget : pickingTarget q = pickingTarget p;
  frame_debug : debug q = debug p;
  frame_isDebugPass : isDebugPass q = isDebugPass p;
  frame_pixelRatio : pixelRatio (gl q) = pixelRatio (gl p);
  frame_width : domElement_width (gl q) = domElement_width (gl p);
  frame_height : domElement_height (gl q) = domElement_height (gl p);
  frame_renderTarget : renderTarget (gl q) = renderTarget (gl p);
  frame_clearColor : clearColor (gl q) = clearColor (gl p);
  frame_clearAlpha : clearAlpha (gl q) = clearAlpha (gl p);
  frame_renderLists : renderLists (gl q) = renderLists (gl p)
}.

(** What the per-item pass only extends: cache entries stay, and a
    material that has an [objectId] uniform keeps it. *)
Record grows (p q : Picker) : Prop := mkGrows {
  grows_cache : forall k r,
    materialCache p !! k = Some r -> materialCache q !! k = Some r;
  grows_objectId : forall r, hasObjectId p r -> hasObjectId q r
}.

(** The material [processItem] selects for the item, seen from the state
    before the call, has an [objectId] uniform: an override or a cached
    material that has one, or a material yet to be built. *)
Definition encodable (p : Picker) (item : RenderItem) : Prop :=
  match obj_pickingMaterial (object item) with
  | Some r => hasObjectId p r
  | None =>
      match materialCache p !! cacheIndex item with
      | Some r => hasObjectId p r
      | None => True
      end
  end.

(** The same with the material already in place: the override, or an
    entry of the cache. *)
Definition ready (p : Picker) (item : RenderItem) : Prop :=
  match obj_pickingMaterial (object item) with
  | Some r => hasObjectId p r
  | None =>
      exists r, materialCache p !! cacheIndex item = Some r /\ hasObjectId p r
  end.

(** An item the pass gets through without an error: the guard skips it,
    or its material is in place. *)
Definition passable (p : Picker) (item : RenderItem) : Prop :=
  skipped (shouldPickObjectCB p) item = true \/ ready p item.

(** The items [handleAfterRender] goes through, in its order. *)
Definition passItems (p : Picker) : list RenderItem :=
  let renderList := renderLists (gl p) (scene p) in
  opaque renderList ++ transmissive renderList ++ transparent renderList.


(** The picker over the same renderer with the skipped items taken out of
    every render list. *)
Definition dropSkipped (shouldPick : Object3D -> bool) (p : Picker) : Picker :=
  set_gl (gl_setRenderLists
            (fun s => withoutSkipped shouldPick (renderLists (gl p) s)) (gl p)) p.

(** The draw call [dc] is the one of [item], with the identifier of the
    item, or its hash when [hashed], encoded in the [objectId] uniform. *)
Definition drawnAs (hashed : bool) (item : RenderItem) (dc : DrawCall) : Prop :=
  dc_object dc = obj_id (object item) /\
  dc_objectId dc =
    Some (UArray (objectIdUniform
                    (if hashed then hashInt (obj_id (object item))
                     else obj_id (object item)))).

(** The items of a list that pass the guard. *)
Definition drawable (shouldPick : Object3D -> bool) (l : list RenderItem)
  : list RenderItem :=
  filter (fun item => skipped shouldPick item = false) l.

(** A property of picker states that only looks at the material store and
    the cache. *)
Definition storeOnly (I : Picker -> Prop) : Prop :=
  forall p q,
    materialCache q = materialCache p -> materials q = materials p ->
    nextMaterial q = nextMaterial p -> I p -> I q.

(** The keys of the cache are three-bit numbers. *)
Definition cache_keys_ok (p : Picker) : Prop :=
  forall k, is_Some (materialCache p !! k) -> 0 <= k < 8.

(** The cached references have been handed out by the store, and no
    reference is cached under two keys. *)
Definition cache_fresh (p : Picker) : Prop :=
  (forall k r, materialCache p !! k = Some r -> (r < nextMaterial p)%nat) /\
  (forall k1 k2 r,
      materialCache p !! k1 = Some r -> materialCache p !! k2 = Some r ->
      k1 = k2).

(** The keys under which a pass over [l] looks up or stores a cached
    material: those of the items that pass the guard and bring no override
    material. *)
Definition cachedKeys (shouldPick : Object3D -> bool) (l : list RenderItem)
  : gset Z :=
  list_to_set
    (cacheIndex <$>
       filter (fun item => obj_pickingMaterial (object item) = None)
         (drawable shouldPick l)).

(** A rasteriser under which the drawn object covers the bound target:
    every pixel takes the colour of the [objectId] uniform, as the 8-bit
    buffer stores it. *)
Definition paintsAll
  (rast : Camera -> BufferGeometry -> ShaderMaterial -> Object3D ->
          FrameBuffer -> FrameBuffer) : Prop :=
  forall cam geo m obj fb v,
    uniforms m !! "objectId" = Some (UArray v) ->
    fb_color (rast cam geo m obj fb) =
    mjoin (replicate (length (fb_depth fb)) (quantize8 <$> v)).

(** The three kinds of lines of [hashInt], on the cell [A[0]]:
    [A[0] -= A[0] << k], [A[0] ^= A[0] << k] and [A[0] ^= A[0] >>> k]. *)
Definition subShl (k a : Z) : Z := Js.toUint32 (a - Js.shl a k).
Definition xorShl (k a : Z) : Z := Js.toUint32 (Js.bxor a (Js.shl a k)).
Definition xorShr (k a : Z) : Z := Js.toUint32 (Js.bxor a (Js.shr a k)).

(** The renderer state [pick] promises to put back. *)
Definition restored (p q : Picker) : Prop :=
  renderTarget (gl q) = renderTarget (gl p) /\
  clearColor (gl q) = clearColor (gl p) /\
  clearAlpha (gl q) = clearAlpha (gl p) /\
  view (camera q) = None.

(** The identifier decoded from a pixel of the clear colour of the
    picking pass: the value [pick] returns when nothing is drawn. *)
Definition sentinel : Js.number := decodeAt (clearBytes WHITE_COLOR 1) 0.





(** The picker over the same renderer with nothing in the render lists. *)
Definition withoutItems (p : Picker) : Picker :=
  set_gl (gl_setRenderLists (fun _ => mkRenderList [] [] []) (gl p)) p.

(** The message of the error [processItem] throws. *)
Definition uniformError : string :=
  "objectId uniform not found in picking material".

(** ** Properties *)

(** *** 32-bit conversions and the codec *)

Lemma toInt32_small (z : Z) :
  - 2 ^ 31 <= z < 2 ^ 31 -> Js.toInt32 z = z.
Proof.
  intros Hz. unfold Js.toInt32. rewrite Z.mod_small; lia.
Qed.

Lemma toInt32_range (z : Z) : - 2 ^ 31 <= Js.toInt32 z < 2 ^ 31.
Proof.
  unfold Js.toInt32.
  pose proof (Z.mod_pos_bound (z + 2 ^ 31) (2 ^ 32) ltac:(lia)). lia.
Qed.

Lemma toInt32_uint32 (z : Z) :
  0 <= z < 2 ^ 32 ->
  Js.toInt32 z = if z <? 2 ^ 31 then z else z - 2 ^ 32.
Proof.
  intros Hz. unfold Js.toInt32. destruct (Z.ltb_spec z (2 ^ 31)).
  - rewrite Z.mod_small; lia.
  - replace (z + 2 ^ 31) with (z - 2 ^ 31 + 1 * 2 ^ 32) by lia.
    rewrite Z.mod_add by lia. rewrite Z.mod_small; lia.
Qed.

Lemma band_255 (a : Z) : Js.band a 255 = Js.toInt32 a mod 256.
Proof.
  unfold Js.band. rewrite (toInt32_small 255) by lia.
  change 255 with (Z.ones 8). rewrite Z.land_ones by lia. reflexivity.
Qed.

Lemma band_255_range (a : Z) : 0 <= Js.band a 255 <= 255.
Proof.
  rewrite band_255.
  pose proof (Z.mod_pos_bound (Js.toInt32 a) 256 ltac:(lia)). lia.
Qed.

Lemma objectIdBytes_range (objId : Z) :
  Forall (fun b => 0 <= b <= 255) (objectIdBytes objId).
Proof.
  unfold objectIdBytes. repeat constructor; apply band_255_range.
Qed.

(** An 8-bit colour buffer stores the quotient [b / 255] as the byte [b]. *)
Lemma quantize8_byte (b : Z) :
  0 <= b <= 255 -> quantize8 (inject_Z b / 255) = b.
Proof.
  intros Hb. unfold quantize8, Qfloor, Qdiv, Qmult, Qinv, Qplus, inject_Z.
  simpl.
  change (Z.pos (1 * 255 * 1 * 2)) with 510.
  change (Z.pos (1 * 255 * 1)) with 255.
  rewrite <- (Z.div_unique (b * 1 * 255 * 2 + 1 * 255) 510 b 255); lia.
Qed.


Lemma quantize8_objectIdUniform (objId : Z) :
  quantize8 <$> objectIdUniform objId = objectIdBytes objId.
Proof.
  unfold objectIdUniform. rewrite <- list_fmap_compose.
  rewrite <- (list_fmap_id (objectIdBytes objId)) at 2.
  apply Forall_fmap_ext_1.
  eapply Forall_impl; [| apply objectIdBytes_range].
  intros b Hb. simpl. apply quantize8_byte. exact Hb.
Qed.

(** Reading four consecutive bytes at the start of a buffer. *)
Lemma decodeAt_0 (b0 b1 b2 b3 : Z) (rest : list Z) :
  decodeAt (b0 :: b1 :: b2 :: b3 :: rest) 0 =
  Js.Num (Js.shl b0 24 + Js.shl b1 16 + Js.shl b2 8 + b3).
Proof. reflexivity. Qed.

Lemma shl_byte_16 (b : Z) : 0 <= b <= 255 -> Js.shl b 16 = b * 2 ^ 16.
Proof.
  intros Hb. unfold Js.shl. rewrite (toInt32_small b) by lia.
  rewrite Z.shiftl_mul_pow2 by lia. apply toInt32_small. lia.
Qed.

Lemma shl_byte_8 (b : Z) : 0 <= b <= 255 -> Js.shl b 8 = b * 2 ^ 8.
Proof.
  intros Hb. unfold Js.shl. rewrite (toInt32_small b) by lia.
  rewrite Z.shiftl_mul_pow2 by lia. apply toInt32_small. lia.
Qed.

(** The shift of the top byte overflows into the sign bit. *)
Lemma shl_byte_24 (b : Z) :
  0 <= b <= 255 ->
  Js.shl b 24 = if b <? 128 then b * 2 ^ 24 else b * 2 ^ 24 - 2 ^ 32.
Proof.
  intros Hb. unfold Js.shl. rewrite (toInt32_small b) by lia.
  rewrite Z.shiftl_mul_pow2 by lia. rewrite toInt32_uint32 by lia.
  destruct (Z.ltb_spec b 128), (Z.ltb_spec (b * 2 ^ 24) (2 ^ 31)); lia.
Qed.

(** What [pick] decodes from the pixel [processItem] encodes: the
    identifier read as a signed 32-bit integer. *)
Lemma decode_encode (objId : Z) :
  decodeAt (quantize8 <$> objectIdUniform objId) 0 = Js.Num (Js.toInt32 objId).
Proof.
  rewrite quantize8_objectIdUniform.
  unfold objectIdBytes.
  pose proof (band_255_range (Js.sar objId 24)) as H0.
  pose proof (band_255_range (Js.sar objId 16)) as H1.
  pose proof (band_255_range (Js.sar objId 8)) as H2.
  pose proof (band_255_range objId) as H3.
  rewrite decodeAt_0. f_equal.
  rewrite shl_byte_24, shl_byte_16, shl_byte_8 by assumption.
  rewrite !band_255 in *. unfold Js.sar in *.
  rewrite !Z.shiftr_div_pow2 in * by lia.
  pose proof (toInt32_range objId) as Hs.
  set (s := Js.toInt32 objId) in *.
  rewrite !(toInt32_small (s / _)) in *
    by (split; [apply Z.div_le_lower_bound | apply Z.div_lt_upper_bound]; lia).
  destruct (Z.ltb_spec ((s / 2 ^ 24) mod 256) 128);
    Z.div_mod_to_equations; lia.
Qed.


(** *** The window arithmetic *)



(** A rational equal to an integer is recognised as such. *)
Lemma integer_inject (q : Q) (n : Z) :
  (q == inject_Z n)%Q -> Js.isInteger q = true /\ Js.toZ q = n.
Proof.
  destruct q as [a d]. unfold Qeq, inject_Z, Js.isInteger, Js.toZ.
  cbn [Qnum Qden]. intros H.
  assert (a = n * Z.pos d) as -> by lia.
  rewrite Z_mod_mult, Z_div_mult by lia. split; [reflexivity | reflexivity].
Qed.

Lemma max_0_inject (q : Q) (n : Z) :
  (q == inject_Z n)%Q -> (Js.max 0 q == inject_Z (Z.max 0 n))%Q.
Proof.
  intros H. unfold Js.max. destruct (Qle_bool 0 q) eqn:E.
  - apply Qle_bool_iff in E. rewrite H in E.
    change 0%Q with (inject_Z 0) in E. rewrite <- Zle_Qle in E.
    rewrite Z.max_r by lia. exact H.
  - assert (~ (0 <= q)%Q) as E'.
    { intros C. apply Qle_bool_iff in C. congruence. }
    rewrite H in E'. change 0%Q with (inject_Z 0) in E'.
    rewrite <- Zle_Qle in E'. rewrite Z.max_l by lia. reflexivity.
Qed.

Lemma min_inject (m : Z) (q : Q) (n : Z) :
  (q == inject_Z n)%Q -> (Js.min (inject_Z m) q == inject_Z (Z.min m n))%Q.
Proof.
  intros H. unfold Js.min. destruct (Qle_bool (inject_Z m) q) eqn:E.
  - apply Qle_bool_iff in E. rewrite H in E. rewrite <- Zle_Qle in E.
    rewrite Z.min_l by lia. reflexivity.
  - assert (~ (inject_Z m <= q)%Q) as E'.
    { intros C. apply Qle_bool_iff in C. congruence. }
    rewrite H in E'. rewrite <- Zle_Qle in E'.
    rewrite Z.min_r by lia. exact H.
Qed.

Lemma windowOrigin_inject (ratio x : Q) (d : Z) :
  (x * ratio == inject_Z d)%Q ->
  (windowOrigin ratio x == inject_Z (Z.max 0 (d - hw)))%Q.
Proof.
  intros H. unfold windowOrigin. apply max_0_inject.
  rewrite H. unfold Qminus. rewrite <- inject_Z_opp, <- inject_Z_plus.
  reflexivity.
Qed.

Lemma sampleOffset_inject (xi yi : Q) (a b : Z) :
  (xi == inject_Z a)%Q -> (yi == inject_Z b)%Q ->
  (sampleOffset xi yi ==
   inject_Z ((Z.min hw b * PIXEL_WIDTH + Z.min hw a) * 4))%Q.
Proof.
  intros Ha Hb. unfold sampleOffset. cbv zeta.
  rewrite (min_inject hw xi a Ha), (min_inject hw yi b Hb).
  change 4%Q with (inject_Z 4).
  rewrite <- inject_Z_mult, <- inject_Z_plus, <- inject_Z_mult. reflexivity.
Qed.

(** Reads of the byte array at an integer index. *)
Lemma typedArrayGet_inject (buf : list Z) (q : Q) (n : Z) :
  (q == inject_Z n)%Q -> 0 <= n ->
  Js.typedArrayGet buf q = buf !! Z.to_nat n.
Proof.
  intros H Hn. destruct (integer_inject q n H) as [Hi Hz].
  unfold Js.typedArrayGet. rewrite Hi, Hz.
  destruct (Z.leb_spec 0 n); [reflexivity | lia].
Qed.

Lemma plus_inject (q : Q) (n k : Z) :
  (q == inject_Z n)%Q -> (q + inject_Z k == inject_Z (n + k))%Q.
Proof. intros H. rewrite H, <- inject_Z_plus. reflexivity. Qed.

Lemma decodeAt_inject (buf : list Z) (off : Q) (o : Z) :
  (off == inject_Z o)%Q -> 0 <= o ->
  decodeAt buf off =
  Js.add_element
    (Js.shl_element (buf !! Z.to_nat o) 24 +
     Js.shl_element (buf !! Z.to_nat (o + 1)) 16 +
     Js.shl_element (buf !! Z.to_nat (o + 2)) 8)
    (buf !! Z.to_nat (o + 3)).
Proof.
  intros H Ho. unfold decodeAt.
  rewrite (typedArrayGet_inject buf (off + 0) (o + 0) (plus_inject off o 0 H)) by lia.
  rewrite (typedArrayGet_inject buf (off + 1) (o + 1) (plus_inject off o 1 H)) by lia.
  rewrite (typedArrayGet_inject buf (off + 2) (o + 2) (plus_inject off o 2 H)) by lia.
  rewrite (typedArrayGet_inject buf (off + 3) (o + 3) (plus_inject off o 3 H)) by lia.
  rewrite Z.add_0_r. reflexivity.
Qed.

(** The buffer index of the sampled pixel, for integer device
    coordinates. *)
Lemma sampleOffset_bounds (a b : Z) :
  0 <= (Z.min hw (Z.max 0 (b - hw)) * PIXEL_WIDTH + Z.min hw (Z.max 0 (a - hw))) * 4
    <= 160.
Proof. unfold hw, PIXEL_WIDTH. change (9 / 2) with 4. lia. Qed.


(** *** The per-item pass: frame and growth *)

Lemma frame_refl (p : Picker) : frame p p.
Proof. constructor; reflexivity. Qed.

Lemma frame_trans (p q s : Picker) : frame p q -> frame q s -> frame p s.
Proof. intros [] []. constructor; congruence. Qed.

Lemma grows_refl (p : Picker) : grows p p.
Proof. constructor; auto. Qed.

Lemma grows_trans (p q s : Picker) : grows p q -> grows q s -> grows p s.
Proof. intros [] []. constructor; auto. Qed.

Lemma processItem_frame (item : RenderItem) (p : Picker) :
  frame p (fst (processItem item p)).
Proof.
  unfold processItem, encodeItem, selectMaterial, copySpriteUniforms,
    drawEncoded, updateMaterial, modify, throw, mbind, M_bind, bind, mret,
    M_ret, ret.
  repeat case_match; simplify_eq; cbn; constructor; reflexivity.
Qed.


(** A relation that every step of a computation respects is respected by
    the whole computation. *)
Lemma bind_preserves {A B : Type} (R : Picker -> Picker -> Prop)
  (m : M A) (k : A -> M B) (p : Picker) :
  (forall x y z, R x y -> R y z -> R x z) ->
  R p (fst (m p)) ->
  (forall a q, R q (fst (k a q))) ->
  R p (fst (bind m k p)).
Proof.
  intros Htrans Hm Hk. unfold bind. destruct (m p) as [q [a | msg]].
  - eapply Htrans; [exact Hm | apply Hk].
  - exact Hm.
Qed.

Lemma forEach_preserves {A : Type} (R : Picker -> Picker -> Prop)
  (f : A -> M unit) (l : list A) :
  (forall x, R x x) ->
  (forall x y z, R x y -> R y z -> R x z) ->
  (forall a q, R q (fst (f a q))) ->
  forall p, R p (fst (forEach f l p)).
Proof.
  intros Hrefl Htrans Hf. induction l as [| a l IH]; intros p.
  - apply Hrefl.
  - change (R p (fst (bind (f a) (fun _ => forEach f l) p))).
    apply bind_preserves; auto.
Qed.

Lemma hasObjectId_update (p : Picker) (r r' : MatRef)
  (f : ShaderMaterial -> ShaderMaterial) :
  (forall m, is_Some (uniforms m !! "objectId") ->
             is_Some (uniforms (f m) !! "objectId")) ->
  hasObjectId p r' ->
  hasObjectId (set_materials (<[r := f (materials p r)]> (materials p)) p) r'.
Proof.
  intros Hf H. unfold hasObjectId in *. cbn.
  destruct (decide (r = r')) as [-> | Hne].
  - rewrite fn_lookup_insert. apply Hf, H.
  - rewrite fn_lookup_insert_ne by exact Hne. exact H.
Qed.

Lemma set_uniform_keeps (name : string) (v : UniformValue) (m : ShaderMaterial) :
  is_Some (uniforms m !! "objectId") ->
  is_Some (uniforms (set_uniform name v m) !! "objectId").
Proof.
  intros H. cbn. destruct (decide (name = "objectId")) as [-> | Hne].
  - rewrite lookup_insert_eq. eauto.
  - rewrite lookup_insert_ne by exact Hne. exact H.
Qed.

Lemma selectMaterial_grows (item : RenderItem) (p : Picker) :
  grows p (fst (selectMaterial item p)).
Proof.
  unfold selectMaterial.
  destruct (obj_pickingMaterial (object item)); [apply grows_refl |].
  destruct (materialCache p !! cacheIndex item) eqn:E; [apply grows_refl |].
  cbn. constructor; cbn.
  - intros k r Hk. rewrite lookup_insert_ne; [exact Hk | congruence].
  - intros r Hr. unfold hasObjectId in *. cbn.
    destruct (decide (nextMaterial p = r)) as [-> | Hne].
    + rewrite fn_lookup_insert. cbn. rewrite lookup_singleton_eq. eauto.
    + rewrite fn_lookup_insert_ne by exact Hne. exact Hr.
Qed.

Lemma copySpriteUniforms_grows (item : RenderItem) (r : MatRef) (p : Picker) :
  grows p (fst (copySpriteUniforms item r p)).
Proof.
  unfold copySpriteUniforms. destruct (sprite item =? 1); [| apply grows_refl].
  cbn. constructor; [auto |]. intros r' Hr'.
  apply (hasObjectId_update p r r'
           (fun m => set_uniform "center"
                       (UVector2 (fst (obj_center (object item)))
                                 (snd (obj_center (object item))))
                       (set_uniform "rotation"
                          (UNumber (mat_rotation (material item))) m)));
    [| exact Hr'].
  intros m Hm. do 2 apply set_uniform_keeps. exact Hm.
Qed.

Lemma drawEncoded_grows (item : RenderItem) (geo : BufferGeometry) (i : Z)
  (r : MatRef) (p : Picker) :
  grows p (fst (drawEncoded item geo i r p)).
Proof.
  unfold drawEncoded.
  destruct (uniforms (materials p r) !! "objectId"); [| apply grows_refl].
  cbn. constructor; [auto |]. intros r' Hr'.
  apply (hasObjectId_update p r r'
           (fun m => set_uniformsNeedUpdate true
                       (set_uniform "objectId" (UArray (objectIdUniform i)) m)));
    [| exact Hr'].
  intros m Hm. cbn. rewrite lookup_insert_eq. eauto.
Qed.

Lemma processItem_grows (item : RenderItem) (p : Picker) :
  grows p (fst (processItem item p)).
Proof.
  unfold processItem. destruct (geometry item); [| apply grows_refl].
  destruct (_ || _); [apply grows_refl |].
  unfold encodeItem, mbind, M_bind.
  apply bind_preserves; [apply grows_trans | apply selectMaterial_grows |].
  intros r q. apply bind_preserves;
    [apply grows_trans | apply copySpriteUniforms_grows |].
  intros _ q'. apply drawEncoded_grows.
Qed.

Lemma handleAfterRender_frame (p : Picker) : frame p (fst (handleAfterRender p)).
Proof.
  unfold handleAfterRender, mbind, M_bind.
  assert (forall l q, frame q (fst (forEach processItem l q))) as Hl.
  { intros l. apply forEach_preserves;
      [apply frame_refl | apply frame_trans | apply processItem_frame]. }
  apply bind_preserves; [apply frame_trans | apply Hl | intros _ q].
  apply bind_preserves; [apply frame_trans | apply Hl | intros _ q'].
  apply Hl.
Qed.

Lemma handleAfterRender_grows (p : Picker) : grows p (fst (handleAfterRender p)).
Proof.
  unfold handleAfterRender, mbind, M_bind.
  assert (forall l q, grows q (fst (forEach processItem l q))) as Hl.
  { intros l. apply forEach_preserves;
      [apply grows_refl | apply grows_trans | apply processItem_grows]. }
  apply bind_preserves; [apply grows_trans | apply Hl | intros _ q].
  apply bind_preserves; [apply grows_trans | apply Hl | intros _ q'].
  apply Hl.
Qed.


(** *** The per-item pass: outcome *)

Lemma skipped_true (cb : Object3D -> bool) (item : RenderItem) :
  skipped cb item = true <->
  geometry item = None \/ obj_picking (object item) = Some false \/
  cb (object item) = false.
Proof.
  unfold skipped. rewrite !orb_true_iff, negb_true_iff, bool_decide_eq_false,
    bool_decide_eq_true, negb_true_iff.
  rewrite <- eq_None_not_Some. tauto.
Qed.

Lemma processItem_skipped (item : RenderItem) (p : Picker) :
  skipped (shouldPickObjectCB p) item = true ->
  processItem item p = (p, Ok tt).
Proof.
  unfold skipped, processItem. destruct (geometry item) as [geo |] eqn:G.
  - rewrite bool_decide_eq_true_2 by eauto. cbn [negb orb].
    intros ->. reflexivity.
  - reflexivity.
Qed.

Lemma processItem_not_skipped (item : RenderItem) (p : Picker) :
  skipped (shouldPickObjectCB p) item = false ->
  exists geo, geometry item = Some geo /\
              processItem item p = encodeItem item geo (objId p item) p.
Proof.
  unfold skipped, processItem. destruct (geometry item) as [geo |] eqn:G.
  - rewrite bool_decide_eq_true_2 by eauto. cbn [negb orb].
    intros ->. eauto.
  - rewrite bool_decide_eq_false_2 by (intros [? ?]; discriminate).
    discriminate.
Qed.

Lemma selectMaterial_result (item : RenderItem) (p : Picker) :
  exists r p1,
    selectMaterial item p = (p1, Ok r) /\
    gl p1 = gl p /\
    (hasObjectId p1 r <-> encodable p item) /\
    match obj_pickingMaterial (object item) with
    | Some r' => r = r'
    | None => materialCache p1 !! cacheIndex item = Some r
    end.
Proof.
  unfold selectMaterial, encodable.
  destruct (obj_pickingMaterial (object item)) as [r |].
  { exists r, p. repeat split; auto. }
  destruct (materialCache p !! cacheIndex item) as [r |] eqn:E.
  { exists r, p. repeat split; auto. }
  eexists _, _. split; [reflexivity |]. cbn. split; [reflexivity |]. split.
  - split; [auto |]. intros _. unfold hasObjectId. cbn.
    rewrite fn_lookup_insert. cbn. rewrite lookup_singleton_eq. eauto.
  - apply lookup_insert_eq.
Qed.

Lemma copySpriteUniforms_result (item : RenderItem) (r : MatRef) (p : Picker) :
  exists p2,
    copySpriteUniforms item r p = (p2, Ok tt) /\
    gl p2 = gl p /\ camera p2 = camera p /\
    materialCache p2 = materialCache p /\
    (forall r', hasObjectId p2 r' <-> hasObjectId p r').
Proof.
  unfold copySpriteUniforms. destruct (sprite item =? 1).
  - eexists. split; [reflexivity |]. cbn. repeat split; try reflexivity.
    + unfold hasObjectId. cbn. destruct (decide (r = r')) as [-> | Hne].
      * rewrite fn_lookup_insert. cbn.
        rewrite !lookup_insert_ne by discriminate. auto.
      * rewrite fn_lookup_insert_ne by exact Hne. auto.
    + unfold hasObjectId. cbn. destruct (decide (r = r')) as [-> | Hne].
      * rewrite fn_lookup_insert. cbn.
        rewrite !lookup_insert_ne by discriminate. auto.
      * rewrite fn_lookup_insert_ne by exact Hne. auto.
  - exists p. repeat split; auto.
Qed.

Lemma drawEncoded_throw (item : RenderItem) (geo : BufferGeometry) (i : Z)
  (r : MatRef) (p : Picker) :
  ~ hasObjectId p r ->
  drawEncoded item geo i r p = (p, Throw uniformError).
Proof.
  unfold drawEncoded, hasObjectId. intros H.
  destruct (uniforms (materials p r) !! "objectId") eqn:E.
  - exfalso. apply H. eauto.
  - reflexivity.
Qed.

Lemma drawEncoded_ok (item : RenderItem) (geo : BufferGeometry) (i : Z)
  (r : MatRef) (p : Picker) :
  hasObjectId p r ->
  exists p3,
    drawEncoded item geo i r p = (p3, Ok tt) /\
    materialCache p3 = materialCache p /\
    hasObjectId p3 r /\
    drawCalls (gl p3) =
    drawCalls (gl p) ++
      [mkDrawCall (obj_id (object item)) r (Some (UArray (objectIdUniform i)))].
Proof.
  unfold drawEncoded, hasObjectId. intros [v Hv]. rewrite Hv.
  eexists. split; [reflexivity |]. cbn.
  rewrite fn_lookup_insert. cbn. rewrite lookup_insert_eq. eauto.
Qed.

(** The outcome of the part of [processItem] after the guard. *)
Lemma encodeItem_throw (item : RenderItem) (geo : BufferGeometry) (i : Z)
  (p : Picker) :
  ~ encodable p item ->
  snd (encodeItem item geo i p) = Throw uniformError /\
  gl (fst (encodeItem item geo i p)) = gl p.
Proof.
  intros H. unfold encodeItem, mbind, M_bind, bind.
  destruct (selectMaterial_result item p) as (r & p1 & -> & Hgl1 & Hiff & _).
  destruct (copySpriteUniforms_result item r p1) as (p2 & -> & Hgl2 & _ & _ & Hsame).
  rewrite drawEncoded_throw.
  - cbn. split; [reflexivity | congruence].
  - rewrite Hsame, Hiff. exact H.
Qed.

Lemma encodeItem_ok (item : RenderItem) (geo : BufferGeometry) (i : Z)
  (p : Picker) :
  encodable p item ->
  exists p3 r,
    encodeItem item geo i p = (p3, Ok tt) /\
    snd (selectMaterial item p) = Ok r /\
    match obj_pickingMaterial (object item) with
    | Some r' => r = r'
    | None => materialCache p3 !! cacheIndex item = Some r
    end /\
    hasObjectId p3 r /\
    drawCalls (gl p3) =
    drawCalls (gl p) ++
      [mkDrawCall (obj_id (object item)) r (Some (UArray (objectIdUniform i)))].
Proof.
  intros H. unfold encodeItem, mbind, M_bind, bind.
  destruct (selectMaterial_result item p) as (r & p1 & -> & Hgl1 & Hiff & Hsel).
  destruct (copySpriteUniforms_result item r p1)
    as (p2 & -> & Hgl2 & _ & Hc2 & Hsame).
  destruct (drawEncoded_ok item geo i r p2) as (p3 & -> & Hc3 & Hhas & Hcalls).
  { rewrite Hsame, Hiff. exact H. }
  exists p3, r. repeat split.
  - destruct (obj_pickingMaterial (object item)); [exact Hsel | congruence].
  - exact Hhas.
  - rewrite Hcalls. congruence.
Qed.


Lemma encodable_dec (p : Picker) (item : RenderItem) :
  encodable p item \/ ~ encodable p item.
Proof.
  unfold encodable, hasObjectId.
  destruct (obj_pickingMaterial (object item)) as [r |].
  - destruct (uniforms (materials p r) !! "objectId"); [left; eauto |].
    right. intros [? ?]. discriminate.
  - destruct (materialCache p !! cacheIndex item) as [r |]; [| auto].
    destruct (uniforms (materials p r) !! "objectId"); [left; eauto |].
    right. intros [? ?]. discriminate.
Qed.

Lemma ready_encodable (p : Picker) (item : RenderItem) :
  ready p item -> encodable p item.
Proof.
  unfold ready, encodable. destruct (obj_pickingMaterial (object item)); [auto |].
  intros (r & -> & H). exact H.
Qed.

Lemma ready_grows (p q : Picker) (item : RenderItem) :
  grows p q -> ready p item -> ready q item.
Proof.
  intros [Hc Ho]. unfold ready.
  destruct (obj_pickingMaterial (object item)); [auto |].
  intros (r & Hr & H). exists r. auto.
Qed.

(** [processItem] throws exactly on an item that passes the guard and
    whose selected material lacks the uniform. *)
Lemma processItem_throw_iff (item : RenderItem) (p : Picker) (msg : string) :
  snd (processItem item p) = Throw msg <->
  msg = uniformError /\ skipped (shouldPickObjectCB p) item = false /\
  ~ encodable p item.
Proof.
  destruct (skipped (shouldPickObjectCB p) item) eqn:S.
  - rewrite processItem_skipped by exact S. cbn. split; [discriminate |].
    intros (_ & ? & _). discriminate.
  - destruct (processItem_not_skipped item p S) as (geo & _ & ->).
    destruct (encodable_dec p item) as [E | E].
    + destruct (encodeItem_ok item geo (objId p item) p E) as (p3 & r & -> & _).
      cbn. split; [discriminate | tauto].
    + destruct (encodeItem_throw item geo (objId p item) p E) as [-> _].
      split; [intros [= <-]; auto | intros (-> & _); reflexivity].
Qed.

Lemma processItem_ok_iff (item : RenderItem) (p : Picker) :
  snd (processItem item p) = Ok tt <->
  skipped (shouldPickObjectCB p) item = true \/ encodable p item.
Proof.
  destruct (snd (processItem item p)) as [[] | msg] eqn:R.
  - split; [intros _ | reflexivity].
    destruct (skipped (shouldPickObjectCB p) item) eqn:S; [auto |].
    destruct (encodable_dec p item) as [E | E]; [auto |].
    assert (snd (processItem item p) = Throw uniformError) as C
      by (apply processItem_throw_iff; auto).
    congruence.
  - apply processItem_throw_iff in R as (_ & S & E).
    split; [discriminate |]. intros [C | C]; [congruence | tauto].
Qed.

Lemma processItem_ok_ready (item : RenderItem) (p : Picker) :
  snd (processItem item p) = Ok tt ->
  skipped (shouldPickObjectCB p) item = false ->
  ready (fst (processItem item p)) item.
Proof.
  intros R S. apply processItem_ok_iff in R as [C | E]; [congruence |].
  destruct (processItem_not_skipped item p S) as (geo & _ & ->).
  destruct (encodeItem_ok item geo (objId p item) p E)
    as (p3 & r & -> & _ & Hsel & Hhas & _).
  cbn [fst]. unfold ready.
  destruct (obj_pickingMaterial (object item)); [subst; exact Hhas | eauto].
Qed.

(** *** The whole pass *)

Lemma forEach_app {A : Type} (f : A -> M unit) (l1 l2 : list A) (p : Picker) :
  forEach f (l1 ++ l2) p = bind (forEach f l1) (fun _ => forEach f l2) p.
Proof.
  revert p. induction l1 as [| a l1 IH]; intros p.
  - reflexivity.
  - cbn [app forEach]. unfold mbind, M_bind, bind in *.
    destruct (f a p) as [q [[] | msg]]; [apply IH | reflexivity].
Qed.

Lemma handleAfterRender_passItems (p : Picker) :
  handleAfterRender p = forEach processItem (passItems p) p.
Proof.
  unfold handleAfterRender, passItems. cbv zeta.
  rewrite forEach_app. unfold mbind, M_bind, bind.
  destruct (forEach processItem _ p) as [q [[] | msg]]; [| reflexivity].
  rewrite forEach_app. reflexivity.
Qed.

Lemma passable_step (p q : Picker) (item : RenderItem) :
  frame p q -> grows p q -> passable p item -> passable q item.
Proof.
  intros F G [S | R]; [left | right].
  - rewrite (frame_cb _ _ F). exact S.
  - eapply ready_grows; eauto.
Qed.

(** A pass that went through leaves every item skipped or with its
    material in place. *)
Lemma forEach_ok_passable (l : list RenderItem) (p : Picker) :
  snd (forEach processItem l p) = Ok tt ->
  Forall (passable (fst (forEach processItem l p))) l.
Proof.
  revert p. induction l as [| item l IH]; intros p H; [constructor |].
  cbn [forEach] in *. unfold mbind, M_bind, bind in *.
  pose proof (processItem_frame item p) as F.
  pose proof (processItem_grows item p) as G.
  pose proof (processItem_ok_ready item p) as R.
  destruct (processItem item p) as [q [[] | msg]]; [| discriminate].
  cbn [fst snd] in *. constructor; [| apply IH; exact H].
  eapply passable_step;
    [ apply (forEach_preserves frame);
        [apply frame_refl | apply frame_trans | apply processItem_frame]
    | apply (forEach_preserves grows);
        [apply grows_refl | apply grows_trans | apply processItem_grows]
    | ].
  destruct (skipped (shouldPickObjectCB p) item) eqn:S.
  - left. rewrite (frame_cb _ _ F). exact S.
  - right. apply R; reflexivity.
Qed.

(** A pass over items that are skipped or have their material in place
    goes through. *)
Lemma forEach_passable_ok (l : list RenderItem) (p : Picker) :
  Forall (passable p) l -> snd (forEach processItem l p) = Ok tt.
Proof.
  revert p. induction l as [| item l IH]; intros p H; [reflexivity |].
  apply Forall_cons_1 in H as [Hi Hl].
  cbn [forEach]. unfold mbind, M_bind, bind.
  pose proof (processItem_frame item p) as F.
  pose proof (processItem_grows item p) as G.
  assert (snd (processItem item p) = Ok tt) as R.
  { apply processItem_ok_iff. destruct Hi as [S | R]; [auto |].
    right. apply ready_encodable, R. }
  destruct (processItem item p) as [q [[] | msg]]; [| discriminate].
  cbn [fst snd] in *. apply IH.
  eapply Forall_impl; [| exact Hl]. intros x Hx.
  eapply passable_step; eauto.
Qed.


Lemma handleAfterRender_ok_passable (p : Picker) :
  snd (handleAfterRender p) = Ok tt ->
  Forall (passable (fst (handleAfterRender p))) (passItems p).
Proof.
  rewrite handleAfterRender_passItems. apply forEach_ok_passable.
Qed.

Lemma handleAfterRender_passable_ok (p : Picker) :
  Forall (passable p) (passItems p) -> snd (handleAfterRender p) = Ok tt.
Proof.
  rewrite handleAfterRender_passItems. apply forEach_passable_ok.
Qed.

(** *** The debug pass *)

(** Over items the pass gets through, the debug pass returns, and puts
    back the clear colour and alpha it changed. *)
Lemma pickDebugRender_ok (q : Picker) :
  Forall (passable q) (passItems q) ->
  exists q',
    pickDebugRender q = (q', Ok tt) /\
    renderTarget (gl q') = renderTarget (gl q) /\
    clearColor (gl q') = clearColor (gl q) /\
    clearAlpha (gl q') = clearAlpha (gl q) /\
    camera q' = camera q /\
    pixelBuffer q' = pixelBuffer q.
Proof.
  intros H. unfold pickDebugRender, gl_render_emptyScene. cbv zeta.
  match goal with
  | |- context [handleAfterRender ?s] => set (q1 := s)
  end.
  assert (snd (handleAfterRender q1) = Ok tt) as R.
  { apply handleAfterRender_passable_ok. exact H. }
  pose proof (handleAfterRender_frame q1) as F.
  destruct (handleAfterRender q1) as [q2 [[] | msg]]; [| discriminate].
  cbn [fst snd] in F. destruct F.
  eexists. split; [reflexivity |]. cbn.
  repeat split; try congruence.
  - rewrite frame_renderTarget0. reflexivity.
  - rewrite frame_currClearColor0. reflexivity.
  - rewrite frame_camera0. reflexivity.
  - rewrite frame_pixelBuffer0. reflexivity.
Qed.


(** *** [pick] *)

Lemma passItems_frame (p q : Picker) : frame p q -> passItems q = passItems p.
Proof.
  intros F. unfold passItems.
  rewrite (frame_renderLists _ _ F), (frame_scene _ _ F). reflexivity.
Qed.

(** When the render pass throws, [pick] stops there. *)
Lemma pick_throw (x y : Q) (cb : Object3D -> bool) (p : Picker) (msg : string) :
  snd (handleAfterRender (pickSetup x y cb p)) = Throw msg ->
  pick x y cb p = (fst (handleAfterRender (pickSetup x y cb p)), Throw msg).
Proof.
  intros H. unfold pick, gl_render_emptyScene. cbv zeta.
  destruct (handleAfterRender (pickSetup x y cb p)) as [q [[] | m]];
    cbn in *; [discriminate | congruence].
Qed.

(** When the render pass returns, [pick] returns the value decoded from
    the readback buffer, with the renderer state put back, whether or not
    the debug flag is set. *)
Lemma pick_ok (x y : Q) (cb : Object3D -> bool) (p : Picker) :
  snd (handleAfterRender (pickSetup x y cb p)) = Ok tt ->
  exists p',
    pick x y cb p =
      (p', Ok (decodeAt (pixelBuffer p')
                 (sampleOffset (windowOrigin (pixelRatio (gl p)) x)
                               (windowOrigin (pixelRatio (gl p)) y)))) /\
    restored p p' /\
    pixelBuffer p' =
      gl_readRenderTargetPixels
        (gl (fst (handleAfterRender (pickSetup x y cb p))))
        (pickingTarget p) (rt_width (pickingTarget p))
        (rt_height (pickingTarget p)) (pixelBuffer p).
Proof.
  intros H. unfold pick, gl_render_emptyScene. cbv zeta.
  pose proof (handleAfterRender_frame (pickSetup x y cb p)) as F.
  pose proof (handleAfterRender_ok_passable (pickSetup x y cb p) H) as Hp.
  destruct (handleAfterRender (pickSetup x y cb p)) as [p2 [[] | m]];
    [| discriminate].
  cbn [fst snd] in *. clear H.
  rewrite <- (passItems_frame _ _ F) in Hp.
  pose proof F as F'. destruct F'. cbn in *.
  match goal with
  | |- context [pickDebugRender ?s] => set (q := s)
  end.
  assert (pixelBuffer q =
          gl_readRenderTargetPixels (gl p2) (pickingTarget p)
            (rt_width (pickingTarget p)) (rt_height (pickingTarget p))
            (pixelBuffer p)) as Hbuf.
  { subst q. cbn. rewrite frame_pickingTarget0, frame_pixelBuffer0. reflexivity. }
  assert (restored p q) as Hres.
  { subst q. unfold restored. cbn. rewrite frame_currClearColor0. auto. }
  destruct (debug p2).
  - destruct (pickDebugRender_ok q Hp) as (q' & -> & Ht & Hc & Ha & Hcam & Hb).
    exists q'. rewrite Hb. split; [reflexivity |]. split; [| exact Hbuf].
    destruct Hres as (? & ? & ? & ?). unfold restored.
    rewrite Ht, Hc, Ha, Hcam. auto.
  - exists q. split; [reflexivity |]. split; [exact Hres | exact Hbuf].
Qed.


(** *** Independence from the debug flag *)





(** The result of [pick] in terms of the picking pass alone. *)
Lemma pick_result (x y : Q) (cb : Object3D -> bool) (p : Picker) :
  snd (pick x y cb p) =
  match handleAfterRender (pickSetup x y cb p) with
  | (p2, Ok _) =>
      Ok (decodeAt
            (gl_readRenderTargetPixels (gl p2) (pickingTarget p)
               (rt_width (pickingTarget p)) (rt_height (pickingTarget p))
               (pixelBuffer p))
            (sampleOffset (windowOrigin (pixelRatio (gl p)) x)
                          (windowOrigin (pixelRatio (gl p)) y)))
  | (_, Throw msg) => Throw msg
  end.
Proof.
  destruct (snd (handleAfterRender (pickSetup x y cb p))) as [[] | msg] eqn:R.
  - destruct (pick_ok x y cb p R) as (p' & -> & _ & Hbuf).
    destruct (handleAfterRender (pickSetup x y cb p)) as [p2 [[] | m]];
      [| discriminate].
    cbn [fst snd] in *. rewrite Hbuf. reflexivity.
  - rewrite (pick_throw x y cb p msg R).
    destruct (handleAfterRender (pickSetup x y cb p)) as [p2 [[] | m]];
      cbn in *; congruence.
Qed.

(** *** Passes that draw nothing *)

Lemma forEach_all_skipped (l : list RenderItem) (p : Picker) :
  Forall (fun item => skipped (shouldPickObjectCB p) item = true) l ->
  forEach processItem l p = (p, Ok tt).
Proof.
  induction l as [| item l IH]; intros H; [reflexivity |].
  apply Forall_cons_1 in H as [Hi Hl].
  cbn [forEach]. unfold mbind, M_bind, bind.
  rewrite processItem_skipped by exact Hi. apply IH, Hl.
Qed.

Lemma cleared_bytes :
  mjoin (replicate (Z.to_nat (PIXEL_WIDTH * PIXEL_WIDTH)) (clearBytes WHITE_COLOR 1))
  = replicate (Z.to_nat (4 * PIXEL_WIDTH * PIXEL_WIDTH)) 255.
Proof. vm_compute. reflexivity. Qed.

(** After the setup of [pick], a readback of the picking target gives the
    clear colour in every byte. *)
Lemma readback_cleared (x y : Q) (cb : Object3D -> bool) (p : Picker) :
  sized p ->
  gl_readRenderTargetPixels (gl (pickSetup x y cb p)) (pickingTarget p)
    (rt_width (pickingTarget p)) (rt_height (pickingTarget p)) (pixelBuffer p)
  = replicate (Z.to_nat (4 * PIXEL_WIDTH * PIXEL_WIDTH)) 255.
Proof.
  intros (Hw & Hh & Hlen).
  unfold gl_readRenderTargetPixels, pickSetup, gl_clear, boundTarget,
    boundPixels. cbn. rewrite fn_lookup_insert. cbn [fb_color].
  rewrite Hw, Hh.
  change [quantize8 1; quantize8 1; quantize8 1; quantize8 1]
    with (clearBytes WHITE_COLOR 1).
  rewrite cleared_bytes. unfold blit.
  rewrite (take_ge (replicate _ 255))
    by (rewrite length_replicate; unfold PIXEL_WIDTH; lia).
  rewrite take_ge by (rewrite length_replicate; lia).
  rewrite drop_ge by (rewrite length_replicate; lia).
  apply app_nil_r.
Qed.

Lemma decode_cleared (off : Q) (o : Z) :
  (off == inject_Z o)%Q -> 0 <= o <= 160 ->
  decodeAt (replicate (Z.to_nat (4 * PIXEL_WIDTH * PIXEL_WIDTH)) 255) off
  = Js.Num (-1).
Proof.
  intros H Ho. rewrite (decodeAt_inject _ off o H) by lia.
  rewrite !lookup_replicate_2 by (unfold PIXEL_WIDTH; lia).
  reflexivity.
Qed.

Lemma sentinel_value : sentinel = Js.Num (-1).
Proof. reflexivity. Qed.

(** With integer device coordinates and every item skipped, [pick]
    returns the sentinel. *)
Lemma pick_all_skipped (x y : Q) (cb : Object3D -> bool) (p : Picker)
  (dx dy : Z) :
  sized p ->
  (x * pixelRatio (gl p) == inject_Z dx)%Q ->
  (y * pixelRatio (gl p) == inject_Z dy)%Q ->
  Forall (fun item => skipped cb item = true) (passItems p) ->
  snd (pick x y cb p) = Ok sentinel.
Proof.
  intros Hs Hx Hy Hall. rewrite pick_result.
  rewrite handleAfterRender_passItems.
  change (passItems (pickSetup x y cb p)) with (passItems p).
  rewrite forEach_all_skipped by exact Hall.
  rewrite readback_cleared by exact Hs.
  rewrite (decode_cleared _ _
             (sampleOffset_inject _ _ _ _
                (windowOrigin_inject _ _ _ Hx) (windowOrigin_inject _ _ _ Hy)))
    by apply sampleOffset_bounds.
  reflexivity.
Qed.


(** *** The cache invariant *)

Lemma newEncodeMaterial_uniforms (item : RenderItem) :
  uniforms (newEncodeMaterial item) = {["objectId" := UNaN4]}.
Proof. reflexivity. Qed.

Lemma cache_ok_newPicker (g : WebGLRenderer) (sc : nat) (cam : Camera)
  (dbg : option bool) (tid : nat) (store : MatRef -> ShaderMaterial)
  (next : MatRef) :
  cache_ok (newPicker g sc cam dbg tid store next).
Proof. intros k r H. cbn in H. rewrite lookup_empty in H. discriminate. Qed.

Lemma selectMaterial_cache_ok (item : RenderItem) (p : Picker) :
  cache_ok p -> cache_ok (fst (selectMaterial item p)).
Proof.
  intros H. pose proof (selectMaterial_grows item p) as G.
  unfold selectMaterial in *.
  destruct (obj_pickingMaterial (object item)); [exact H |].
  destruct (materialCache p !! cacheIndex item) eqn:E; [exact H |].
  cbn [fst] in *. intros k r Hk. cbn in Hk.
  destruct (decide (cacheIndex item = k)) as [<- | Hne].
  - rewrite lookup_insert_eq in Hk. injection Hk as <-.
    unfold hasObjectId. cbn. rewrite fn_lookup_insert. cbn.
    rewrite lookup_singleton_eq. eauto.
  - rewrite lookup_insert_ne in Hk by exact Hne.
    apply (grows_objectId _ _ G). apply (H k r Hk).
Qed.

(** Steps that keep the cache and only extend the uniforms keep the
    invariant. *)
Lemma cache_ok_same_cache (p q : Picker) :
  materialCache q = materialCache p -> grows p q -> cache_ok p -> cache_ok q.
Proof.
  intros Hc G H k r Hk. rewrite Hc in Hk.
  apply (grows_objectId _ _ G). apply (H k r Hk).
Qed.

Lemma drawEncoded_cache (item : RenderItem) (geo : BufferGeometry) (i : Z)
  (r : MatRef) (p : Picker) :
  materialCache (fst (drawEncoded item geo i r p)) = materialCache p.
Proof.
  unfold drawEncoded.
  destruct (uniforms (materials p r) !! "objectId"); reflexivity.
Qed.

Lemma processItem_cache_ok (item : RenderItem) (p : Picker) :
  cache_ok p -> cache_ok (fst (processItem item p)).
Proof.
  intros H. unfold processItem. destruct (geometry item); [| exact H].
  destruct (_ || _); [exact H |].
  unfold encodeItem, mbind, M_bind, bind.
  pose proof (selectMaterial_cache_ok item p H) as H1.
  destruct (selectMaterial_result item p) as (r & p1 & E1 & _).
  rewrite E1 in *. cbn [fst] in H1.
  destruct (copySpriteUniforms_result item r p1) as (p2 & E2 & _ & _ & Hc2 & Hs2).
  rewrite E2.
  assert (cache_ok p2) as H2.
  { intros k r' Hk. rewrite Hc2 in Hk. apply Hs2. apply (H1 k r' Hk). }
  apply (cache_ok_same_cache p2);
    [apply drawEncoded_cache | apply drawEncoded_grows | exact H2].
Qed.

Lemma cache_ok_encodable (p : Picker) (item : RenderItem) :
  cache_ok p -> obj_pickingMaterial (object item) = None -> encodable p item.
Proof.
  intros H Hn. unfold encodable. rewrite Hn.
  destruct (materialCache p !! cacheIndex item) eqn:E; [| exact I].
  apply (H _ _ E).
Qed.

(** With the cache invariant, a pass over items without an override
    material goes through. *)
Lemma forEach_no_override_ok (l : list RenderItem) (p : Picker) :
  cache_ok p ->
  Forall (fun item => obj_pickingMaterial (object item) = None) l ->
  snd (forEach processItem l p) = Ok tt.
Proof.
  revert p. induction l as [| item l IH]; intros p H Hall; [reflexivity |].
  apply Forall_cons_1 in Hall as [Hi Hl].
  cbn [forEach]. unfold mbind, M_bind, bind.
  pose proof (processItem_cache_ok item p H) as H'.
  assert (snd (processItem item p) = Ok tt) as R.
  { apply processItem_ok_iff. right. apply cache_ok_encodable; assumption. }
  destruct (processItem item p) as [q [[] | msg]]; [| discriminate].
  apply IH; assumption.
Qed.


(** *** The cache key *)

Lemma cacheIndex_value (item : RenderItem) :
  cacheIndex item = useInstancing item + 2 * sprite item + 4 * sizeAttenuation item.
Proof.
  unfold cacheIndex, useInstancing, sprite, sizeAttenuation.
  destruct (obj_isInstancedMesh _), (String.eqb _ _), (mat_sizeAttenuation _);
    reflexivity.
Qed.



(** *** The log of draw calls *)





(** An item that is drawn is drawn with the material [selectMaterial]
    gives, which is then the override or the entry of the cache. *)
Lemma processItem_drawn (item : RenderItem) (p : Picker) :
  skipped (shouldPickObjectCB p) item = false ->
  snd (processItem item p) = Ok tt ->
  exists r d,
    snd (selectMaterial item p) = Ok r /\
    drawCalls (gl (fst (processItem item p))) = drawCalls (gl p) ++ [d] /\
    dc_object d = obj_id (object item) /\
    dc_material d = r /\
    dc_objectId d = Some (UArray (objectIdUniform (objId p item))) /\
    match obj_pickingMaterial (object item) with
    | Some r' => r = r'
    | None => materialCache (fst (processItem item p)) !! cacheIndex item = Some r
    end.
Proof.
  intros S R. apply processItem_ok_iff in R as [C | E]; [congruence |].
  destruct (processItem_not_skipped item p S) as (geo & _ & ->).
  destruct (encodeItem_ok item geo (objId p item) p E)
    as (p3 & r & -> & Hsel & Hc & _ & Hcalls).
  exists r, (mkDrawCall (obj_id (object item)) r
               (Some (UArray (objectIdUniform (objId p item))))).
  cbn [fst]. repeat split; auto.
Qed.

Lemma forEach_cons_ok (item : RenderItem) (l : list RenderItem) (p : Picker) :
  snd (forEach processItem (item :: l) p) = Ok tt ->
  snd (processItem item p) = Ok tt /\
  forEach processItem (item :: l) p =
  forEach processItem l (fst (processItem item p)).
Proof.
  cbn [forEach]. unfold mbind, M_bind, bind.
  destruct (processItem item p) as [q [[] | msg]]; cbn; [auto | discriminate].
Qed.



(** *** Independence from the skipped items *)

Lemma processItem_set_renderLists (f : nat -> RenderList) (item : RenderItem)
  (p : Picker) :
  processItem item (set_gl (gl_setRenderLists f (gl p)) p) =
  (set_gl (gl_setRenderLists f (gl (fst (processItem item p))))
     (fst (processItem item p)),
   snd (processItem item p)).
Proof.
  unfold processItem, encodeItem, selectMaterial, copySpriteUniforms,
    drawEncoded, updateMaterial, modify, throw, mbind, M_bind, bind, mret,
    M_ret, ret, objId.
  cbn.
  repeat case_match; simplify_eq; cbn in *; try reflexivity; congruence.
Qed.

Lemma forEach_set_renderLists (f : nat -> RenderList) (l : list RenderItem)
  (p : Picker) :
  forEach processItem l (set_gl (gl_setRenderLists f (gl p)) p) =
  (set_gl (gl_setRenderLists f (gl (fst (forEach processItem l p))))
     (fst (forEach processItem l p)),
   snd (forEach processItem l p)).
Proof.
  revert p. induction l as [| item l IH]; intros p.
  - cbn. destruct p as [g ? ? ? ? ? ? ? ? ? ? ?]. destruct g. reflexivity.
  - cbn [forEach]. unfold mbind, M_bind, bind.
    rewrite processItem_set_renderLists.
    destruct (processItem item p) as [q [[] | msg]]; cbn [fst snd].
    + apply IH.
    + reflexivity.
Qed.

(** Taking the skipped items out of a list does not change the pass over
    it. *)
Lemma forEach_filter_skipped (cb : Object3D -> bool) (l : list RenderItem)
  (p : Picker) :
  shouldPickObjectCB p = cb ->
  forEach processItem (filter (fun item => skipped cb item = false) l) p =
  forEach processItem l p.
Proof.
  revert p. induction l as [| item l IH]; intros p Hcb; [reflexivity |].
  destruct (skipped cb item) eqn:S.
  - rewrite filter_cons_False by congruence.
    cbn [forEach]. unfold mbind, M_bind, bind.
    rewrite processItem_skipped by (rewrite Hcb; exact S).
    apply IH, Hcb.
  - rewrite filter_cons_True by exact S.
    cbn [forEach]. unfold mbind, M_bind, bind.
    pose proof (frame_cb _ _ (processItem_frame item p)) as F.
    destruct (processItem item p) as [q [[] | msg]]; [| reflexivity].
    apply IH. cbn [fst] in F. congruence.
Qed.

Lemma passItems_dropSkipped (cb : Object3D -> bool) (p : Picker) :
  passItems (dropSkipped cb p) =
  filter (fun item => skipped cb item = false) (passItems p).
Proof.
  unfold passItems, dropSkipped, withoutSkipped. cbn.
  rewrite !list.filter_app. reflexivity.
Qed.

(** [pick] returns the same with the skipped items taken out of the render
    lists. *)
Lemma pick_dropSkipped (x y : Q) (cb : Object3D -> bool) (p : Picker) :
  snd (pick x y cb (dropSkipped cb p)) = snd (pick x y cb p).
Proof.
  rewrite !pick_result, !handleAfterRender_passItems.
  change (pickSetup x y cb (dropSkipped cb p))
    with (dropSkipped cb (pickSetup x y cb p)).
  rewrite passItems_dropSkipped. unfold dropSkipped at 1.
  rewrite forEach_set_renderLists.
  rewrite forEach_filter_skipped by reflexivity.
  destruct (forEach processItem (passItems (pickSetup x y cb p))
              (pickSetup x y cb p)) as [q [[] | msg]]; reflexivity.
Qed.

(** ** The claims *)

(** C3 (amended): a [pick] call that returns has put back the render
    target, the clear colour and the clear alpha it found and has removed
    the view offset of the camera; a [pick] call that throws leaves the
    picking target bound, the clear colour white, the clear alpha at one
    and the view offset of the sampling window on the camera. *)
Theorem pick_restores_on_return (x y : Q) (cb : Object3D -> bool) (p : Picker) :
  match pick x y cb p with
  | (p', Ok _) => restored p p'
  | (p', Throw _) =>
      renderTarget (gl p') = Some (pickingTarget p) /\
      clearColor (gl p') = WHITE_COLOR /\
      clearAlpha (gl p') = 1%Q /\
      view (camera p') =
        Some (mkViewOffset (domElement_width (gl p)) (domElement_height (gl p))
                (windowOrigin (pixelRatio (gl p)) x)
                (windowOrigin (pixelRatio (gl p)) y)
                PIXEL_WIDTH PIXEL_WIDTH)
  end.
Proof.
  destruct (snd (handleAfterRender (pickSetup x y cb p))) as [[] | msg] eqn:R.
  - destruct (pick_ok x y cb p R) as (p' & -> & Hres & _). exact Hres.
  - rewrite (pick_throw x y cb p msg R).
    destruct (handleAfterRender_frame (pickSetup x y cb p)).
    rewrite frame_renderTarget0, frame_clearColor0, frame_clearAlpha0,
      frame_camera0.
    repeat split; reflexivity.
Qed.

Lemma app_singleton_neq {A : Type} (l : list A) (a : A) : l ++ [a] <> l.
Proof.
  intros H. apply (f_equal length) in H. rewrite length_app in H.
  cbn in H. lia.
Qed.

Lemma dispose_store (refs : list MatRef) (st : MatRef -> ShaderMaterial)
  (r : MatRef) :
  r ∈ refs ->
  mat_disposed
    (foldr (fun r st => <[r := material_dispose (st r)]> st) st refs r) = true.
Proof.
  induction refs as [| a refs IH]; intros H.
  - apply elem_of_nil in H. contradiction.
  - cbn [foldr]. destruct (decide (a = r)) as [-> | Hne].
    + rewrite fn_lookup_insert. reflexivity.
    + rewrite fn_lookup_insert_ne by exact Hne.
      apply elem_of_cons in H as [-> | H]; [contradiction | auto].
Qed.

(** C9: [dispose()] returns without an error, marks every cached material
    and the offscreen render target as disposed and leaves the material
    cache empty; a second [dispose()] returns without an error too and
    changes nothing more. *)
Theorem dispose_releases_and_repeats (p : Picker) :
  snd (dispose p) = Ok tt /\
  materialCache (fst (dispose p)) = ∅ /\
  rt_disposed (pickingTarget (fst (dispose p))) = true /\
  map_Forall (fun _ r => mat_disposed (materials (fst (dispose p)) r) = true)
    (materialCache p) /\
  dispose (fst (dispose p)) = (fst (dispose p), Ok tt).
Proof.
  split; [reflexivity |]. split; [reflexivity |]. split; [reflexivity |].
  split.
  - intros k r Hk. cbn. apply dispose_store.
    apply list_elem_of_fmap. exists (k, r). split; [reflexivity |].
    apply elem_of_map_to_list. exact Hk.
  - unfold dispose. cbn. rewrite map_to_list_empty. reflexivity.
Qed.

(** C10: when [x * pixelRatio] and [y * pixelRatio] are nonnegative
    integers, the buffer index [pick] decodes at is an integer [o] with
    [0 <= o] and [o + 3 < 324], 324 being the length of the readback buffer
    the constructor allocates, so that each of the four reads yields a
    byte and [pick], when it returns, returns a number; with a fractional
    device coordinate the index can fail to be an integer, and the decoded
    value is then [NaN]. *)
Theorem pick_reads_in_bounds :
  (forall (x y : Q) (cb : Object3D -> bool) (p : Picker) (dx dy : Z),
      0 <= dx -> 0 <= dy ->
      (x * pixelRatio (gl p) == inject_Z dx)%Q ->
      (y * pixelRatio (gl p) == inject_Z dy)%Q ->
      length (pixelBuffer p) = 324%nat ->
      let offset := sampleOffset (windowOrigin (pixelRatio (gl p)) x)
                                 (windowOrigin (pixelRatio (gl p)) y) in
      Js.isInteger offset = true /\
      0 <= Js.toZ offset /\ Js.toZ offset + 3 < 324 /\
      (forall buf : list Z, length buf = 324%nat ->
         is_Some (Js.typedArrayGet buf (offset + 0)%Q) /\
         is_Some (Js.typedArrayGet buf (offset + 1)%Q) /\
         is_Some (Js.typedArrayGet buf (offset + 2)%Q) /\
         is_Some (Js.typedArrayGet buf (offset + 3)%Q)) /\
      match pick x y cb p with
      | (p', Ok v) => length (pixelBuffer p') = 324%nat /\ exists z, v = Js.Num z
      | (_, Throw _) => True
      end) /\
  (forall g sc cam dbg tid store next,
      length (pixelBuffer (newPicker g sc cam dbg tid store next)) = 324%nat) /\
  (let offset := sampleOffset (windowOrigin 1 (43 # 10)) (windowOrigin 1 0) in
   Js.isInteger offset = false /\
   forall buf : list Z, decodeAt buf offset = Js.NaN).
Proof.
  split; [| split; [reflexivity | split; [reflexivity | reflexivity]]].
  intros x y cb p dx dy Hdx Hdy Hx Hy Hlen offset.
  pose proof (sampleOffset_inject _ _ _ _
                (windowOrigin_inject _ _ _ Hx) (windowOrigin_inject _ _ _ Hy))
    as Hoff.
  fold offset in Hoff.
  pose proof (sampleOffset_bounds dx dy) as Hb.
  set (o := (Z.min hw (Z.max 0 (dy - hw)) * PIXEL_WIDTH
             + Z.min hw (Z.max 0 (dx - hw))) * 4) in *.
  destruct (integer_inject offset o Hoff) as [Hint Hz].
  assert (forall buf : list Z, length buf = 324%nat ->
            forall k, 0 <= k <= 3 ->
            is_Some (Js.typedArrayGet buf (offset + inject_Z k)%Q)) as Hread.
  { intros buf Hl k Hk.
    rewrite (typedArrayGet_inject buf _ (o + k) (plus_inject offset o k Hoff))
      by lia.
    apply lookup_lt_is_Some. lia. }
  split; [exact Hint |]. rewrite Hz. split; [lia |]. split; [lia |].
  split.
  - intros buf Hl. repeat split.
    + apply (Hread buf Hl 0); lia.
    + apply (Hread buf Hl 1); lia.
    + apply (Hread buf Hl 2); lia.
    + apply (Hread buf Hl 3); lia.
  - destruct (snd (handleAfterRender (pickSetup x y cb p))) as [[] | msg] eqn:R.
    + destruct (pick_ok x y cb p R) as (p' & -> & _ & Hbuf).
      fold offset.
      assert (length (pixelBuffer p') = 324%nat) as Hl'.
      { rewrite Hbuf. unfold gl_readRenderTargetPixels, blit.
        rewrite length_app, length_take, length_drop. lia. }
      split; [exact Hl' |].
      change (exists z, decodeAt (pixelBuffer p') offset = Js.Num z).
      rewrite (decodeAt_inject _ offset o Hoff) by lia.
      destruct (lookup_lt_is_Some_2 (pixelBuffer p') (Z.to_nat o))
        as [b0 ->]; [lia |].
      destruct (lookup_lt_is_Some_2 (pixelBuffer p') (Z.to_nat (o + 1)))
        as [b1 ->]; [lia |].
      destruct (lookup_lt_is_Some_2 (pixelBuffer p') (Z.to_nat (o + 2)))
        as [b2 ->]; [lia |].
      destruct (lookup_lt_is_Some_2 (pixelBuffer p') (Z.to_nat (o + 3)))
        as [b3 ->]; [lia |].
      cbn. eauto.
    + rewrite (pick_throw x y cb p msg R). exact I.
Qed.


Lemma forEach_throw_message (l : list RenderItem) (p : Picker) (msg : string) :
  snd (forEach processItem l p) = Throw msg -> msg = uniformError.
Proof.
  revert p. induction l as [| item l IH]; intros p; [discriminate |].
  cbn [forEach]. unfold mbind, M_bind, bind.
  pose proof (processItem_throw_iff item p) as T.
  destruct (processItem item p) as [q [[] | m]]; cbn [snd] in *.
  - apply IH.
  - intros [= <-]. apply (T m). reflexivity.
Qed.


(** C6: [processItem] throws, with the message of the missing uniform,
    exactly on an item that passes the guard and whose selected material
    has no [objectId] uniform at the draw; a [pick] whose render pass throws
    throws, and throws nothing else; a material built for the cache has
    the uniform; and when every cached material has it, which
    [processItem] maintains, [processItem] throws exactly on an item that
    passes the guard with an override material that lacks the uniform, and
    [pick] over items without an override material returns. *)
Theorem uniform_error_only_from_override :
  (forall (item : RenderItem) (p : Picker) (msg : string),
      snd (processItem item p) = Throw msg <->
      msg = uniformError /\
      skipped (shouldPickObjectCB p) item = false /\
      exists r p1,
        selectMaterial item p = (p1, Ok r) /\
        ~ hasObjectId (fst (copySpriteUniforms item r p1)) r) /\
  (forall (x y : Q) (cb : Object3D -> bool) (p : Picker) (msg : string),
      (snd (handleAfterRender (pickSetup x y cb p)) = Throw msg ->
       snd (pick x y cb p) = Throw msg) /\
      (snd (pick x y cb p) = Throw msg -> msg = uniformError)) /\
  (forall item : RenderItem,
      is_Some (uniforms (newEncodeMaterial item) !! "objectId")) /\
  (forall (item : RenderItem) (p : Picker) (msg : string),
      cache_ok p ->
      cache_ok (fst (processItem item p)) /\
      (snd (processItem item p) = Throw msg <->
       msg = uniformError /\
       skipped (shouldPickObjectCB p) item = false /\
       exists r, obj_pickingMaterial (object item) = Some r /\
                 ~ hasObjectId p r)) /\
  (forall (x y : Q) (cb : Object3D -> bool) (p : Picker),
      cache_ok p ->
      Forall (fun item => obj_pickingMaterial (object item) = None) (passItems p) ->
      exists v, snd (pick x y cb p) = Ok v).
Proof.
  split; [| split; [| split; [| split]]].
  - intros item p msg. rewrite processItem_throw_iff.
    destruct (selectMaterial_result item p) as (r & p1 & Hs & _ & Hiff & _).
    destruct (copySpriteUniforms_result item r p1) as (p2 & Hc & _ & _ & _ & Hsame).
    split.
    + intros (-> & S & E). repeat split; auto. exists r, p1. split; [exact Hs |].
      rewrite Hc. cbn [fst]. rewrite Hsame, Hiff. exact E.
    + intros (-> & S & r' & p1' & Hs' & E). repeat split; auto.
      rewrite Hs in Hs'. injection Hs' as <- <-.
      rewrite Hc in E. cbn [fst] in E. rewrite Hsame, Hiff in E. exact E.
  - intros x y cb p msg. split.
    + intros H. rewrite (pick_throw x y cb p msg H). reflexivity.
    + rewrite pick_result, handleAfterRender_passItems.
      pose proof (forEach_throw_message (passItems (pickSetup x y cb p))
                    (pickSetup x y cb p)) as T.
      destruct (forEach processItem _ (pickSetup x y cb p)) as [q [[] | m]];
        [discriminate |].
      intros [= <-]. apply T. reflexivity.
  - intros item. rewrite newEncodeMaterial_uniforms, lookup_singleton_eq. eauto.
  - intros item p msg H. split; [apply processItem_cache_ok; exact H |].
    rewrite processItem_throw_iff. split.
    + intros (-> & S & E). repeat split; auto.
      unfold encodable in E.
      destruct (obj_pickingMaterial (object item)) as [r |] eqn:O; [eauto |].
      exfalso. apply E.
      pose proof (cache_ok_encodable p item H O) as E'.
      unfold encodable in E'. rewrite O in E'. exact E'.
    + intros (-> & S & r & O & E). repeat split; auto.
      unfold encodable. rewrite O. exact E.
  - intros x y cb p H Hall. rewrite pick_result.
    assert (snd (handleAfterRender (pickSetup x y cb p)) = Ok tt) as R.
    { rewrite handleAfterRender_passItems.
      apply forEach_no_override_ok; [exact H | exact Hall]. }
    destruct (handleAfterRender (pickSetup x y cb p)) as [q [[] | m]];
      [eauto | discriminate].
Qed.


(** ** Further properties of the picker *)

(** *** What the methods keep *)

(** [pickDebugRender] leaves everything but the clear colour, the pass flag,
    the material store, the cache and the drawn pixels as it found them;
    when it returns the clear colour and alpha are back and the pass flag is
    cleared, and when it throws the clear colour is white, the alpha one and
    the pass flag still set. *)
Lemma pickDebugRender_keeps (q : Picker) :
  let q' := fst (pickDebugRender q) in
  scene q' = scene q /\ camera q' = camera q /\
  shouldPickObjectCB q' = shouldPickObjectCB q /\
  pixelBuffer q' = pixelBuffer q /\ pickingTarget q' = pickingTarget q /\
  debug q' = debug q /\
  pixelRatio (gl q') = pixelRatio (gl q) /\
  domElement_width (gl q') = domElement_width (gl q) /\
  domElement_height (gl q') = domElement_height (gl q) /\
  renderTarget (gl q') = renderTarget (gl q) /\
  renderLists (gl q') = renderLists (gl q) /\
  match snd (pickDebugRender q) with
  | Ok _ =>
      isDebugPass q' = false /\
      clearColor (gl q') = clearColor (gl q) /\
      clearAlpha (gl q') = clearAlpha (gl q)
  | Throw _ =>
      isDebugPass q' = true /\
      clearColor (gl q') = WHITE_COLOR /\
      clearAlpha (gl q') = 1%Q
  end.
Proof.
  unfold pickDebugRender, gl_render_emptyScene. cbv zeta.
  match goal with
  | |- context [handleAfterRender ?s] => set (q1 := s)
  end.
  pose proof (handleAfterRender_frame q1) as F.
  destruct (handleAfterRender q1) as [q2 [[] | msg]];
    cbn [fst snd] in *; destruct F; cbn in *;
    repeat split; congruence.
Qed.


Lemma blit_length (src dst : list Z) : length (blit src dst) = length dst.
Proof.
  unfold blit. rewrite length_app, length_take, length_drop. lia.
Qed.

(** On both outcomes [pick] leaves the scene, the picking target, the debug
    flag, the pixel ratio, the canvas size and the render lists as it found
    them and the readback buffer at its length, and the predicate it was
    given stays installed. *)
Lemma pick_keeps (x y : Q) (cb : Object3D -> bool) (p : Picker) :
  let p' := fst (pick x y cb p) in
  scene p' = scene p /\ pickingTarget p' = pickingTarget p /\
  debug p' = debug p /\ shouldPickObjectCB p' = cb /\
  pixelRatio (gl p') = pixelRatio (gl p) /\
  domElement_width (gl p') = domElement_width (gl p) /\
  domElement_height (gl p') = domElement_height (gl p) /\
  renderLists (gl p') = renderLists (gl p) /\
  length (pixelBuffer p') = length (pixelBuffer p).
Proof.
  unfold pick, gl_render_emptyScene. cbv zeta.
  pose proof (handleAfterRender_frame (pickSetup x y cb p)) as F.
  destruct (handleAfterRender (pickSetup x y cb p)) as [p2 [[] | m]];
    cbn [fst snd] in *; destruct F; cbn in *.
  - match goal with
    | |- context [pickDebugRender ?s] => set (q := s)
    end.
    assert (scene q = scene p /\ pickingTarget q = pickingTarget p /\
            debug q = debug p /\ shouldPickObjectCB q = cb /\
            pixelRatio (gl q) = pixelRatio (gl p) /\
            domElement_width (gl q) = domElement_width (gl p) /\
            domElement_height (gl q) = domElement_height (gl p) /\
            renderLists (gl q) = renderLists (gl p) /\
            length (pixelBuffer q) = length (pixelBuffer p)) as Hq.
    { subst q. cbn. unfold gl_readRenderTargetPixels.
      rewrite blit_length. repeat split; congruence. }
    destruct (debug p2); [| exact Hq].
    pose proof (pickDebugRender_keeps q) as K. cbv zeta in K.
    destruct (pickDebugRender q) as [q' [[] | msg]]; cbn [fst snd] in *;
      destruct K as (? & ? & ? & Hb & ? & ? & ? & ? & ? & ? & ? & _);
      rewrite Hb; repeat split; intuition congruence.
  - repeat split; congruence.
Qed.

(** X1: the render target and the readback buffer keep the size the
    constructor gives them: a new picker has a 9 by 9 target and a buffer of
    324 bytes, and [pick], [pickDebugRender] and [dispose] leave a picker of
    that size at that size, whether they return or throw. *)
Theorem sized_is_kept :
  (forall g sc cam dbg tid store next,
      sized (newPicker g sc cam dbg tid store next)) /\
  (forall (x y : Q) (cb : Object3D -> bool) (p : Picker),
      sized p ->
      sized (fst (pick x y cb p)) /\
      sized (fst (pickDebugRender p)) /\
      sized (fst (dispose p))).
Proof.
  split; [repeat split |].
  intros x y cb p (Hw & Hh & Hl). repeat split.
  - destruct (pick_keeps x y cb p) as (_ & -> & _). exact Hw.
  - destruct (pick_keeps x y cb p) as (_ & -> & _). exact Hh.
  - destruct (pick_keeps x y cb p) as (_ & _ & _ & _ & _ & _ & _ & _ & ->).
    exact Hl.
  - destruct (pickDebugRender_keeps p) as (_ & _ & _ & _ & -> & _). exact Hw.
  - destruct (pickDebugRender_keeps p) as (_ & _ & _ & _ & -> & _). exact Hh.
  - destruct (pickDebugRender_keeps p) as (_ & _ & _ & -> & _). exact Hl.
  - exact Hw.
  - exact Hh.
  - exact Hl.
Qed.

(** X2: the predicate given to [pick] is still the active predicate when
    [pick] has returned or thrown: it is not put back to the default, and a
    later [pickDebugRender] filters with it. *)
Theorem pick_leaves_predicate (x y : Q) (cb : Object3D -> bool) (p : Picker) :
  shouldPickObjectCB (fst (pick x y cb p)) = cb /\
  shouldPickObjectCB (fst (pickDebugRender (fst (pick x y cb p)))) = cb.
Proof.
  destruct (pick_keeps x y cb p) as (_ & _ & _ & H & _).
  split; [exact H |].
  destruct (pickDebugRender_keeps (fst (pick x y cb p))) as (_ & _ & -> & _).
  exact H.
Qed.

(** X3: a [pickDebugRender] that returns has put the clear colour and alpha
    back and cleared the pass flag; one that throws leaves the pass flag set
    and the clear colour white with alpha one; either way the bound render
    target, the camera and the readback buffer are as before. *)
Theorem pickDebugRender_outcome (p : Picker) :
  renderTarget (gl (fst (pickDebugRender p))) = renderTarget (gl p) /\
  camera (fst (pickDebugRender p)) = camera p /\
  pixelBuffer (fst (pickDebugRender p)) = pixelBuffer p /\
  match pickDebugRender p with
  | (p', Ok _) =>
      isDebugPass p' = false /\
      clearColor (gl p') = clearColor (gl p) /\
      clearAlpha (gl p') = clearAlpha (gl p)
  | (p', Throw msg) =>
      msg = uniformError /\
      isDebugPass p' = true /\
      clearColor (gl p') = WHITE_COLOR /\
      clearAlpha (gl p') = 1%Q
  end.
Proof.
  pose proof (pickDebugRender_keeps p) as K. cbv zeta in K.
  destruct K as (_ & Hc & _ & Hb & _ & _ & _ & _ & _ & Ht & _ & Hout).
  split; [exact Ht |]. split; [exact Hc |]. split; [exact Hb |].
  assert (forall msg, snd (pickDebugRender p) = Throw msg -> msg = uniformError)
    as Hmsg.
  { unfold pickDebugRender, gl_render_emptyScene. cbv zeta.
    match goal with
    | |- context [handleAfterRender ?s] => set (q1 := s)
    end.
    pose proof (forEach_throw_message (passItems q1) q1) as T.
    rewrite <- handleAfterRender_passItems in T.
    destruct (handleAfterRender q1) as [q2 [[] | m]]; cbn [snd] in *.
    - discriminate.
    - intros msg [= <-]. apply T. reflexivity. }
  destruct (pickDebugRender p) as [p' [[] | msg]]; cbn [fst snd] in *.
  - exact Hout.
  - split; [apply Hmsg; reflexivity | exact Hout].
Qed.


(** *** The draw calls of a pass *)

Lemma forEach_draws (l : list RenderItem) (p : Picker) :
  snd (forEach processItem l p) = Ok tt ->
  exists calls,
    drawCalls (gl (fst (forEach processItem l p))) = drawCalls (gl p) ++ calls /\
    Forall2 (drawnAs (isDebugPass p)) (drawable (shouldPickObjectCB p) l) calls.
Proof.
  revert p. induction l as [| item l IH]; intros p R.
  - exists []. split; [symmetry; apply app_nil_r | constructor].
  - destruct (forEach_cons_ok _ _ _ R) as [R1 E1]. rewrite E1 in *. clear E1.
    pose proof (processItem_frame item p) as F.
    destruct (IH _ R) as (calls & Hcalls & Hall).
    rewrite (frame_cb _ _ F), (frame_isDebugPass _ _ F) in Hall.
    unfold drawable in *.
    destruct (skipped (shouldPickObjectCB p) item) eqn:S.
    + rewrite filter_cons_False by congruence.
      rewrite (processItem_skipped item p S) in *. cbn [fst] in *. eauto.
    + rewrite filter_cons_True by exact S.
      destruct (processItem_drawn item p S R1)
        as (r & d & _ & Hd & Ho & _ & Hu & _).
      exists (d :: calls). split.
      * rewrite Hcalls, Hd, <- app_assoc. reflexivity.
      * constructor; [| exact Hall]. split; [exact Ho |].
        rewrite Hu. unfold objId. reflexivity.
Qed.

Lemma handleAfterRender_draws (p : Picker) :
  snd (handleAfterRender p) = Ok tt ->
  exists calls,
    drawCalls (gl (fst (handleAfterRender p))) = drawCalls (gl p) ++ calls /\
    Forall2 (drawnAs (isDebugPass p))
      (drawable (shouldPickObjectCB p) (passItems p)) calls.
Proof.
  rewrite handleAfterRender_passItems. apply forEach_draws.
Qed.

(** X4: a pass of [handleAfterRender] that returns has submitted exactly one
    draw call for each item that passes the guard, in the order opaque,
    transmissive, transparent, and none for the others; each call carries
    the identifier of its item in the [objectId] uniform, as four bytes over
    255, or the hash of the identifier when the pass flag is set. *)
Theorem pass_draws_each_item (p : Picker) :
  snd (handleAfterRender p) = Ok tt ->
  exists calls,
    drawCalls (gl (fst (handleAfterRender p))) = drawCalls (gl p) ++ calls /\
    Forall2 (drawnAs (isDebugPass p))
      (drawable (shouldPickObjectCB p) (passItems p)) calls.
Proof.
  apply handleAfterRender_draws.
Qed.

Lemma pickDebugRender_draws (q : Picker) :
  snd (pickDebugRender q) = Ok tt ->
  exists calls,
    drawCalls (gl (fst (pickDebugRender q))) = drawCalls (gl q) ++ calls /\
    Forall2 (drawnAs true) (drawable (shouldPickObjectCB q) (passItems q)) calls.
Proof.
  unfold pickDebugRender, gl_render_emptyScene. cbv zeta.
  match goal with
  | |- context [handleAfterRender ?s] => set (q1 := s)
  end.
  pose proof (handleAfterRender_draws q1) as D.
  destruct (handleAfterRender q1) as [q2 [[] | msg]]; cbn [fst snd] in *;
    [| discriminate].
  intros _. destruct (D eq_refl) as (calls & Hc & Hall).
  exists calls. split; [exact Hc | exact Hall].
Qed.

(** The draw calls of a [pick] that returns: those of the picking pass,
    encoded under the pass flag [pick] found, then those of the overlay
    pass when the debug flag is set, encoded as hashes. *)
Lemma pick_draws (x y : Q) (cb : Object3D -> bool) (p : Picker)
  (v : Js.number) :
  snd (pick x y cb p) = Ok v ->
  exists calls overlay,
    drawCalls (gl (fst (pick x y cb p))) = drawCalls (gl p) ++ calls ++ overlay /\
    Forall2 (drawnAs (isDebugPass p)) (drawable cb (passItems p)) calls /\
    if debug p
    then Forall2 (drawnAs true) (drawable cb (passItems p)) overlay
    else overlay = [].
Proof.
  unfold pick, gl_render_emptyScene. cbv zeta.
  pose proof (handleAfterRender_frame (pickSetup x y cb p)) as F.
  pose proof (handleAfterRender_draws (pickSetup x y cb p)) as D.
  destruct (handleAfterRender (pickSetup x y cb p)) as [p2 [[] | m]];
    cbn [fst snd] in *.
  2: { destruct (debug _); discriminate. }
  destruct (D eq_refl) as (calls & Hc & Hall). clear D.
  change (passItems (pickSetup x y cb p)) with (passItems p) in Hall.
  change (shouldPickObjectCB (pickSetup x y cb p)) with cb in Hall.
  change (isDebugPass (pickSetup x y cb p)) with (isDebugPass p) in Hall.
  change (drawCalls (gl (pickSetup x y cb p))) with (drawCalls (gl p)) in Hc.
  match goal with
  | |- context [pickDebugRender ?s] => set (q := s)
  end.
  assert (drawCalls (gl q) = drawCalls (gl p) ++ calls) as Hq
    by (subst q; exact Hc).
  assert (passItems q = passItems p) as Hitems.
  { subst q. apply (passItems_frame _ _ F). }
  assert (shouldPickObjectCB q = cb) as Hcb.
  { subst q. cbn. apply (frame_cb _ _ F). }
  assert (debug q = debug p) as Hdbg.
  { subst q. cbn. apply (frame_debug _ _ F). }
  change (debug p2) with (debug q). rewrite Hdbg.
  destruct (debug p).
  - pose proof (pickDebugRender_draws q) as D2.
    destruct (pickDebugRender q) as [q' [[] | msg]]; cbn [fst snd] in *;
      [| discriminate].
    intros _. destruct (D2 eq_refl) as (overlay & Ho & Hall2).
    rewrite Hitems, Hcb in Hall2.
    exists calls, overlay. split; [| split; assumption].
    rewrite Ho, Hq, <- app_assoc. reflexivity.
  - intros _. exists calls, []. cbn [fst].
    rewrite app_nil_r. repeat split; assumption.
Qed.

(** X5: a [pick] that returns, started with the pass flag cleared, has
    submitted one draw call with the plain identifier for each item that
    passes the guard and, when the debug flag is set, after them one more
    for each of the same items with the hashed identifier; without the
    debug flag nothing follows the first group. *)
Theorem pick_draw_calls (x y : Q) (cb : Object3D -> bool) (p : Picker)
  (v : Js.number) :
  isDebugPass p = false ->
  snd (pick x y cb p) = Ok v ->
  exists calls overlay,
    drawCalls (gl (fst (pick x y cb p))) = drawCalls (gl p) ++ calls ++ overlay /\
    Forall2 (drawnAs false) (drawable cb (passItems p)) calls /\
    if debug p
    then Forall2 (drawnAs true) (drawable cb (passItems p)) overlay
    else overlay = [].
Proof.
  intros Hflag R. destruct (pick_draws x y cb p v R) as (calls & overlay & H).
  rewrite Hflag in H. exists calls, overlay. exact H.
Qed.


(** *** Invariants of the material store *)

Lemma forEach_invariant (I : Picker -> Prop) (l : list RenderItem) (p : Picker) :
  (forall item q, I q -> I (fst (processItem item q))) ->
  I p -> I (fst (forEach processItem l p)).
Proof.
  intros Hstep.
  apply (forEach_preserves (fun a b => I a -> I b) processItem l); auto.
Qed.

Lemma handleAfterRender_invariant (I : Picker -> Prop) (p : Picker) :
  (forall item q, I q -> I (fst (processItem item q))) ->
  I p -> I (fst (handleAfterRender p)).
Proof.
  rewrite handleAfterRender_passItems. apply forEach_invariant.
Qed.

Lemma pickDebugRender_invariant (I : Picker -> Prop) (p : Picker) :
  storeOnly I ->
  (forall item q, I q -> I (fst (processItem item q))) ->
  I p -> I (fst (pickDebugRender p)).
Proof.
  intros Hs Hstep Hp. unfold pickDebugRender, gl_render_emptyScene. cbv zeta.
  match goal with
  | |- context [handleAfterRender ?s] => set (q1 := s)
  end.
  assert (I q1) as H1 by (apply (Hs p); [reflexivity .. | exact Hp]).
  pose proof (handleAfterRender_invariant I q1 Hstep H1) as H2.
  destruct (handleAfterRender q1) as [q2 [[] | msg]]; cbn [fst] in *.
  - apply (Hs q2); [reflexivity .. | exact H2].
  - exact H2.
Qed.

Lemma pick_invariant (I : Picker -> Prop) (x y : Q) (cb : Object3D -> bool)
  (p : Picker) :
  storeOnly I ->
  (forall item q, I q -> I (fst (processItem item q))) ->
  I p -> I (fst (pick x y cb p)).
Proof.
  intros Hs Hstep Hp. unfold pick, gl_render_emptyScene. cbv zeta.
  assert (I (pickSetup x y cb p)) as H1
    by (apply (Hs p); [reflexivity .. | exact Hp]).
  pose proof (handleAfterRender_invariant I _ Hstep H1) as H2.
  destruct (handleAfterRender (pickSetup x y cb p)) as [p2 [[] | msg]];
    cbn [fst] in *; [| exact H2].
  match goal with
  | |- context [pickDebugRender ?s] => set (q := s)
  end.
  assert (I q) as Hq by (apply (Hs p2); [reflexivity .. | exact H2]).
  destruct (debug q); [| exact Hq].
  pose proof (pickDebugRender_invariant I q Hs Hstep Hq) as H3.
  destruct (pickDebugRender q) as [q' [[] | msg]]; exact H3.
Qed.

Lemma storeOnly_cache_ok : storeOnly cache_ok.
Proof.
  intros p q Hc Hm _ H k r Hk. unfold hasObjectId.
  rewrite Hm. apply (H k r). rewrite <- Hc. exact Hk.
Qed.

(** X6: that every cached material has an [objectId] uniform holds of a new
    picker and is kept by [pick], by [pickDebugRender] and by [dispose],
    whether they return or throw. *)
Theorem cache_ok_is_kept :
  (forall g sc cam dbg tid store next,
      cache_ok (newPicker g sc cam dbg tid store next)) /\
  (forall (x y : Q) (cb : Object3D -> bool) (p : Picker),
      cache_ok p ->
      cache_ok (fst (pick x y cb p)) /\
      cache_ok (fst (pickDebugRender p)) /\
      cache_ok (fst (dispose p))).
Proof.
  split; [apply cache_ok_newPicker |].
  intros x y cb p H. split; [| split].
  - apply pick_invariant;
      [apply storeOnly_cache_ok | apply processItem_cache_ok | exact H].
  - apply pickDebugRender_invariant;
      [apply storeOnly_cache_ok | apply processItem_cache_ok | exact H].
  - intros k r Hk. cbn in Hk. rewrite lookup_empty in Hk. discriminate.
Qed.


(** What [processItem] does to the cache and to the reference counter: a
    new entry under the key of the item, for an item that passes the guard,
    brings no override material and finds no entry, and nothing
    otherwise. *)
Lemma processItem_store (item : RenderItem) (p : Picker) :
  let q := fst (processItem item p) in
  if skipped (shouldPickObjectCB p) item
  then materialCache q = materialCache p /\ nextMaterial q = nextMaterial p
  else
    match obj_pickingMaterial (object item), materialCache p !! cacheIndex item with
    | None, None =>
        materialCache q = <[cacheIndex item := nextMaterial p]> (materialCache p) /\
        nextMaterial q = S (nextMaterial p)
    | _, _ => materialCache q = materialCache p /\ nextMaterial q = nextMaterial p
    end.
Proof.
  cbv zeta. destruct (skipped (shouldPickObjectCB p) item) eqn:S.
  - rewrite processItem_skipped by exact S. auto.
  - destruct (processItem_not_skipped item p S) as (geo & _ & ->).
    unfold encodeItem, selectMaterial, copySpriteUniforms, drawEncoded,
      updateMaterial, modify, throw, mbind, M_bind, bind, mret, M_ret, ret.
    repeat case_match; simplify_eq; cbn in *; auto; congruence.
Qed.

Lemma cacheIndex_range (item : RenderItem) : 0 <= cacheIndex item < 8.
Proof.
  rewrite cacheIndex_value. unfold useInstancing, sprite, sizeAttenuation.
  destruct (obj_isInstancedMesh _), (String.eqb _ _), (mat_sizeAttenuation _);
    lia.
Qed.

Lemma processItem_cache_keys_ok (item : RenderItem) (p : Picker) :
  cache_keys_ok p -> cache_keys_ok (fst (processItem item p)).
Proof.
  intros H. pose proof (processItem_store item p) as St. cbv zeta in St.
  unfold cache_keys_ok in *.
  destruct (skipped _ item); [destruct St as [-> _]; exact H |].
  destruct (obj_pickingMaterial (object item));
    [destruct St as [-> _]; exact H |].
  destruct (materialCache p !! cacheIndex item) eqn:E;
    destruct St as [-> _]; [exact H |].
  intros k Hk. destruct (decide (cacheIndex item = k)) as [<- | Hne].
  - apply cacheIndex_range.
  - rewrite lookup_insert_ne in Hk by exact Hne. apply H, Hk.
Qed.

Lemma processItem_cache_fresh (item : RenderItem) (p : Picker) :
  cache_fresh p -> cache_fresh (fst (processItem item p)).
Proof.
  intros [Hlt Hinj]. pose proof (processItem_store item p) as St. cbv zeta in St.
  unfold cache_fresh.
  destruct (skipped _ item);
    [destruct St as [-> ->]; split; assumption |].
  destruct (obj_pickingMaterial (object item));
    [destruct St as [-> ->]; split; assumption |].
  destruct (materialCache p !! cacheIndex item) eqn:E;
    destruct St as [-> ->]; [split; assumption |].
  split.
  - intros k r Hk. destruct (decide (cacheIndex item = k)) as [<- | Hne].
    + rewrite lookup_insert_eq in Hk. injection Hk as <-. lia.
    + rewrite lookup_insert_ne in Hk by exact Hne.
      pose proof (Hlt k r Hk). lia.
  - intros k1 k2 r H1 H2.
    destruct (decide (cacheIndex item = k1)) as [<- | Hn1];
      destruct (decide (cacheIndex item = k2)) as [<- | Hn2].
    + reflexivity.
    + rewrite lookup_insert_eq in H1. injection H1 as <-.
      rewrite lookup_insert_ne in H2 by exact Hn2.
      pose proof (Hlt k2 _ H2). lia.
    + rewrite lookup_insert_eq in H2. injection H2 as <-.
      rewrite lookup_insert_ne in H1 by exact Hn1.
      pose proof (Hlt k1 _ H1). lia.
    + rewrite lookup_insert_ne in H1 by exact Hn1.
      rewrite lookup_insert_ne in H2 by exact Hn2.
      apply (Hinj k1 k2 r H1 H2).
Qed.

Lemma storeOnly_cache_keys_ok : storeOnly cache_keys_ok.
Proof. intros p q Hc _ _ H k Hk. apply H. rewrite <- Hc. exact Hk. Qed.

Lemma storeOnly_cache_fresh : storeOnly cache_fresh.
Proof.
  intros p q Hc _ Hn [Hlt Hinj]. unfold cache_fresh. rewrite Hc, Hn.
  split; assumption.
Qed.

(** A map whose keys are three-bit numbers has at most eight entries. *)
Lemma three_bit_keys_size (m : gmap Z MatRef) :
  (forall k, is_Some (m !! k) -> 0 <= k < 8) -> (size m <= 8)%nat.
Proof.
  intros H. rewrite <- size_dom.
  change 8%nat with (size (list_to_set [0; 1; 2; 3; 4; 5; 6; 7] : gset Z)).
  apply subseteq_size. intros k Hk. apply elem_of_dom in Hk.
  pose proof (H k Hk) as Hr.
  apply elem_of_list_to_set, list_elem_of_In. cbn. lia.
Qed.

(** X7: the material cache never holds more than eight materials: the keys
    of a new picker's cache are three-bit numbers, [pick], [pickDebugRender]
    and [dispose] keep them so, and a cache with such keys has at most eight
    entries. *)
Theorem cache_is_bounded :
  (forall g sc cam dbg tid store next,
      cache_keys_ok (newPicker g sc cam dbg tid store next)) /\
  (forall (x y : Q) (cb : Object3D -> bool) (p : Picker),
      cache_keys_ok p ->
      cache_keys_ok (fst (pick x y cb p)) /\
      cache_keys_ok (fst (pickDebugRender p)) /\
      cache_keys_ok (fst (dispose p)) /\
      (size (materialCache p) <= 8)%nat).
Proof.
  split.
  - intros g sc cam dbg tid store next k [r Hk]. cbn in Hk.
    rewrite lookup_empty in Hk. discriminate.
  - intros x y cb p H. split; [| split; [| split]].
    + apply pick_invariant;
        [apply storeOnly_cache_keys_ok | apply processItem_cache_keys_ok | exact H].
    + apply pickDebugRender_invariant;
        [apply storeOnly_cache_keys_ok | apply processItem_cache_keys_ok | exact H].
    + intros k [r Hk]. cbn in Hk. rewrite lookup_empty in Hk. discriminate.
    + apply three_bit_keys_size, H.
Qed.

(** X8: materials cached under different keys are different instances: in
    a new picker, and after any [pick], [pickDebugRender] or [dispose] on a
    picker of which it holds, every cached reference was handed out by the
    store and no reference sits under two keys. *)
Theorem cache_instances_distinct :
  (forall g sc cam dbg tid store next,
      cache_fresh (newPicker g sc cam dbg tid store next)) /\
  (forall (x y : Q) (cb : Object3D -> bool) (p : Picker),
      cache_fresh p ->
      cache_fresh (fst (pick x y cb p)) /\
      cache_fresh (fst (pickDebugRender p)) /\
      cache_fresh (fst (dispose p)) /\
      (forall k1 k2 r1 r2,
          materialCache p !! k1 = Some r1 -> materialCache p !! k2 = Some r2 ->
          k1 <> k2 -> r1 <> r2)).
Proof.
  assert (forall c : gmap Z MatRef, c = ∅ -> forall n,
            (forall k r, c !! k = Some r -> (r < n)%nat) /\
            (forall k1 k2 r, c !! k1 = Some r -> c !! k2 = Some r -> k1 = k2))
    as Hempty.
  { intros c -> n. split; intros; rewrite lookup_empty in *; discriminate. }
  split.
  - intros g sc cam dbg tid store next. apply Hempty. reflexivity.
  - intros x y cb p H. split; [| split; [| split]].
    + apply pick_invariant;
        [apply storeOnly_cache_fresh | apply processItem_cache_fresh | exact H].
    + apply pickDebugRender_invariant;
        [apply storeOnly_cache_fresh | apply processItem_cache_fresh | exact H].
    + apply Hempty. reflexivity.
    + intros k1 k2 r1 r2 H1 H2 Hne ->. apply Hne.
      apply (proj2 H k1 k2 r2 H1 H2).
Qed.


Lemma cachedKeys_cons (cb : Object3D -> bool) (item : RenderItem)
  (l : list RenderItem) :
  cachedKeys cb (item :: l) =
  (if skipped cb item then ∅
   else match obj_pickingMaterial (object item) with
        | Some _ => ∅
        | None => {[cacheIndex item]}
        end) ∪ cachedKeys cb l.
Proof.
  unfold cachedKeys, drawable. destruct (skipped cb item) eqn:S.
  - rewrite (filter_cons_False _ item l) by congruence. set_solver.
  - rewrite (filter_cons_True _ item l) by exact S.
    destruct (obj_pickingMaterial (object item)) eqn:O.
    + rewrite filter_cons_False by congruence. set_solver.
    + rewrite filter_cons_True by exact O. cbn. set_solver.
Qed.

Lemma processItem_cache_dom (item : RenderItem) (p : Picker) :
  dom (materialCache (fst (processItem item p))) =
  dom (materialCache p) ∪ cachedKeys (shouldPickObjectCB p) [item].
Proof.
  rewrite cachedKeys_cons. pose proof (processItem_store item p) as St.
  cbv zeta in St. unfold cachedKeys, drawable.
  destruct (skipped _ item); [destruct St as [-> _]; set_solver |].
  destruct (obj_pickingMaterial (object item));
    [destruct St as [-> _]; set_solver |].
  destruct (materialCache p !! cacheIndex item) eqn:E; destruct St as [-> _].
  - assert (cacheIndex item ∈ dom (materialCache p))
      by (apply elem_of_dom; eauto).
    set_solver.
  - rewrite dom_insert_L. set_solver.
Qed.

Lemma forEach_cache_dom (l : list RenderItem) (p : Picker) :
  snd (forEach processItem l p) = Ok tt ->
  dom (materialCache (fst (forEach processItem l p))) =
  dom (materialCache p) ∪ cachedKeys (shouldPickObjectCB p) l.
Proof.
  revert p. induction l as [| item l IH]; intros p R.
  - cbn. unfold cachedKeys, drawable. set_solver.
  - destruct (forEach_cons_ok _ _ _ R) as [R1 E1]. rewrite E1 in *. clear E1.
    rewrite (IH _ R), processItem_cache_dom.
    rewrite (frame_cb _ _ (processItem_frame item p)).
    rewrite (cachedKeys_cons _ item l), (cachedKeys_cons _ item []).
    set_solver.
Qed.

(** X9: cache entries are made on demand and never replaced: after a pass
    that returns, the keys of the cache are those it had before together
    with the keys of the items that passed the guard without an override
    material, and every entry the cache had before is still there with the
    same material. *)
Theorem pass_fills_cache (p : Picker) :
  snd (handleAfterRender p) = Ok tt ->
  dom (materialCache (fst (handleAfterRender p))) =
    dom (materialCache p) ∪ cachedKeys (shouldPickObjectCB p) (passItems p) /\
  forall k r,
    materialCache p !! k = Some r ->
    materialCache (fst (handleAfterRender p)) !! k = Some r.
Proof.
  intros R. split.
  - rewrite handleAfterRender_passItems in *. apply forEach_cache_dom, R.
  - apply (grows_cache _ _ (handleAfterRender_grows p)).
Qed.


(** *** [dispose] *)

Lemma material_dispose_idem (m : ShaderMaterial) :
  material_dispose (material_dispose m) = material_dispose m.
Proof. reflexivity. Qed.

Lemma dispose_store_at (refs : list MatRef) (st : MatRef -> ShaderMaterial)
  (r : MatRef) :
  foldr (fun r st => <[r := material_dispose (st r)]> st) st refs r =
  if bool_decide (r ∈ refs) then material_dispose (st r) else st r.
Proof.
  induction refs as [| a refs IH].
  - reflexivity.
  - cbn [foldr]. destruct (decide (a = r)) as [-> | Hne].
    + rewrite fn_lookup_insert.
      rewrite (bool_decide_eq_true_2 (r ∈ r :: refs))
        by (apply elem_of_cons; auto).
      rewrite IH. destruct (bool_decide (r ∈ refs)); reflexivity.
    + rewrite fn_lookup_insert_ne by exact Hne. rewrite IH.
      destruct (decide (r ∈ refs)) as [Hin | Hout].
      * rewrite (bool_decide_eq_true_2 (r ∈ refs)) by exact Hin.
        rewrite (bool_decide_eq_true_2 (r ∈ a :: refs))
          by (apply elem_of_cons; auto).
        reflexivity.
      * rewrite (bool_decide_eq_false_2 (r ∈ refs)) by exact Hout.
        rewrite (bool_decide_eq_false_2 (r ∈ a :: refs)); [reflexivity |].
        intros [-> | Hin]%elem_of_cons; contradiction.
Qed.

(** X10: [dispose] touches the cached materials only, and of those only the
    disposed mark: a material that is under some key of the cache comes out
    marked, with its shaders and uniforms as they were; a material under no
    key, such as the override material of an object, is left as it is; and
    the renderer, the camera, the readback buffer, the predicate and the
    reference counter are left as they are. *)
Theorem dispose_touches_only_cached (p : Picker) (r : MatRef) :
  ((exists k, materialCache p !! k = Some r) ->
   materials (fst (dispose p)) r = material_dispose (materials p r)) /\
  ((forall k, materialCache p !! k <> Some r) ->
   materials (fst (dispose p)) r = materials p r) /\
  uniforms (materials (fst (dispose p)) r) = uniforms (materials p r) /\
  vertexShader (materials (fst (dispose p)) r) = vertexShader (materials p r) /\
  fragmentShader (materials (fst (dispose p)) r) = fragmentShader (materials p r) /\
  gl (fst (dispose p)) = gl p /\ camera (fst (dispose p)) = camera p /\
  pixelBuffer (fst (dispose p)) = pixelBuffer p /\
  shouldPickObjectCB (fst (dispose p)) = shouldPickObjectCB p /\
  nextMaterial (fst (dispose p)) = nextMaterial p.
Proof.
  assert (r ∈ (map_to_list (materialCache p)).*2 <->
          exists k, materialCache p !! k = Some r) as Hin.
  { rewrite list_elem_of_fmap. split.
    - intros ([k r'] & -> & H). exists k. apply elem_of_map_to_list. exact H.
    - intros [k H]. exists (k, r). split; [reflexivity |].
      apply elem_of_map_to_list. exact H. }
  cbn. rewrite dispose_store_at.
  repeat split; try (destruct (bool_decide _); reflexivity).
  - intros H. rewrite bool_decide_eq_true_2; [reflexivity | apply Hin, H].
  - intros H. rewrite bool_decide_eq_false_2; [reflexivity |].
    intros [k Hk]%Hin. apply (H k Hk).
Qed.


(** *** What a draw does to the bound target *)

Lemma processItem_framebuffer (item : RenderItem) (p : Picker) :
  skipped (shouldPickObjectCB p) item = false ->
  snd (processItem item p) = Ok tt ->
  exists geo mat,
    geometry item = Some geo /\
    uniforms mat !! "objectId" = Some (UArray (objectIdUniform (objId p item))) /\
    framebuffers (gl (fst (processItem item p))) (boundTarget (gl p)) =
      rasterize (camera p) geo mat (object item)
        (framebuffers (gl p) (boundTarget (gl p))).
Proof.
  intros S. destruct (processItem_not_skipped item p S) as (geo & Hgeo & ->).
  intros R. exists geo.
  unfold encodeItem, mbind, M_bind, bind in *.
  destruct (selectMaterial_result item p) as (r & p1 & E1 & Hgl1 & _ & _).
  assert (camera p1 = camera p) as Hcam1.
  { unfold selectMaterial in E1. repeat case_match; simplify_eq; reflexivity. }
  rewrite E1 in *.
  destruct (copySpriteUniforms_result item r p1)
    as (p2 & E2 & Hgl2 & Hcam2 & _ & _).
  rewrite E2 in *.
  unfold drawEncoded in *.
  destruct (uniforms (materials p2 r) !! "objectId"); [| discriminate].
  clear R.
  exists (set_uniformsNeedUpdate true
            (set_uniform "objectId" (UArray (objectIdUniform (objId p item)))
               (materials p2 r))).
  split; [exact Hgeo |]. split; [cbn; apply lookup_insert_eq |].
  cbn. rewrite !fn_lookup_insert. rewrite Hgl2, Hgl1, Hcam2, Hcam1.
  rewrite fn_lookup_insert. reflexivity.
Qed.


(** *** A single object that covers the window *)

Lemma lookup_mjoin_replicate {A : Type} (l : list A) (n m j : nat) :
  (m < n)%nat -> (j < length l)%nat ->
  mjoin (replicate n l) !! (m * length l + j)%nat = l !! j.
Proof.
  revert n. induction m as [| m IH]; intros n Hm Hj.
  - destruct n as [| n]; [lia |]. cbn. apply lookup_app_l. exact Hj.
  - destruct n as [| n]; [lia |].
    change (mjoin (replicate (S n) l)) with (l ++ mjoin (replicate n l)).
    rewrite lookup_app_r by lia.
    replace (S m * length l + j - length l)%nat with (m * length l + j)%nat by lia.
    apply IH; lia.
Qed.

Lemma length_mjoin_replicate {A : Type} (l : list A) (n : nat) :
  length (mjoin (replicate n l)) = (n * length l)%nat.
Proof.
  induction n as [| n IH]; [reflexivity |].
  change (mjoin (replicate (S n) l)) with (l ++ mjoin (replicate n l)).
  rewrite length_app, IH. lia.
Qed.

(** Decoding at the start of pixel [m] of a buffer filled with one pixel
    value is decoding that value. *)
Lemma decodeAt_pixel (b0 b1 b2 b3 : Z) (n : nat) (off : Q) (m : Z) :
  0 <= m < Z.of_nat n ->
  (off == inject_Z (4 * m))%Q ->
  decodeAt (mjoin (replicate n [b0; b1; b2; b3])) off =
  decodeAt [b0; b1; b2; b3] 0.
Proof.
  intros Hm Hoff. rewrite (decodeAt_inject _ off (4 * m) Hoff) by lia.
  rewrite decodeAt_0.
  assert (forall j : nat, (j < 4)%nat ->
            mjoin (replicate n [b0; b1; b2; b3]) !! Z.to_nat (4 * m + Z.of_nat j)
            = [b0; b1; b2; b3] !! j) as Hl.
  { intros j Hj.
    replace (Z.to_nat (4 * m + Z.of_nat j))
      with (Z.to_nat m * length [b0; b1; b2; b3] + j)%nat by (cbn; lia).
    apply lookup_mjoin_replicate; cbn; lia. }
  assert (mjoin (replicate n [b0; b1; b2; b3]) !! Z.to_nat (4 * m) = Some b0)
    as H0.
  { rewrite <- (Z.add_0_r (4 * m)). exact (Hl 0%nat ltac:(lia)). }
  assert (mjoin (replicate n [b0; b1; b2; b3]) !! Z.to_nat (4 * m + 1) = Some b1)
    as H1 by exact (Hl 1%nat ltac:(lia)).
  assert (mjoin (replicate n [b0; b1; b2; b3]) !! Z.to_nat (4 * m + 2) = Some b2)
    as H2 by exact (Hl 2%nat ltac:(lia)).
  assert (mjoin (replicate n [b0; b1; b2; b3]) !! Z.to_nat (4 * m + 3) = Some b3)
    as H3 by exact (Hl 3%nat ltac:(lia)).
  rewrite H0, H1, H2, H3. reflexivity.
Qed.

(** A single item that covers the window is the one [pick] decodes. *)
Lemma pick_covering_object (x y : Q) (cb : Object3D -> bool)
  (p : Picker) (item : RenderItem) (dx dy : Z) :
  paintsAll rasterize ->
  sized p ->
  isDebugPass p = false ->
  (x * pixelRatio (gl p) == inject_Z dx)%Q ->
  (y * pixelRatio (gl p) == inject_Z dy)%Q ->
  passItems p = [item] ->
  skipped cb item = false ->
  encodable p item ->
  snd (pick x y cb p) = Ok (Js.Num (Js.toInt32 (obj_id (object item)))) /\
  (0 <= obj_id (object item) < 2 ^ 31 ->
   snd (pick x y cb p) = Ok (Js.Num (obj_id (object item)))).
Proof.
  intros Hrast (Hw & Hh & Hlen) Hflag Hx Hy Hitems S E.
  assert (snd (pick x y cb p) = Ok (Js.Num (Js.toInt32 (obj_id (object item)))))
    as Hmain.
  2: { split; [exact Hmain |]. intros Hid. rewrite Hmain, toInt32_small by lia.
       reflexivity. }
  rewrite pick_result, handleAfterRender_passItems.
  change (passItems (pickSetup x y cb p)) with (passItems p). rewrite Hitems.
  set (p1 := pickSetup x y cb p).
  assert (snd (processItem item p1) = Ok tt) as R.
  { apply processItem_ok_iff. right. exact E. }
  destruct (processItem_framebuffer item p1 S R) as (geo & mat & _ & Hu & Hfb).
  cbn [forEach]. unfold mbind, M_bind, bind, mret, M_ret, ret.
  destruct (processItem item p1) as [p2 [[] | msg]]; [| discriminate].
  cbn [fst snd] in *.
  assert (objId p1 item = obj_id (object item)) as Hid.
  { unfold objId. change (isDebugPass p1) with (isDebugPass p).
    rewrite Hflag. reflexivity. }
  rewrite Hid in Hu.
  assert (fb_color (framebuffers (gl p2) (Some (rt_id (pickingTarget p)))) =
          mjoin (replicate 81 (objectIdBytes (obj_id (object item))))) as Hcol.
  { change (boundTarget (gl p1)) with (Some (rt_id (pickingTarget p))) in Hfb.
    rewrite Hfb, (Hrast _ _ _ _ _ _ Hu), quantize8_objectIdUniform.
    subst p1. unfold pickSetup, gl_clear, boundPixels. cbn.
    rewrite fn_lookup_insert. cbn [fb_depth].
    rewrite length_replicate, Hw, Hh. reflexivity. }
  change (Z.to_nat (4 * PIXEL_WIDTH * PIXEL_WIDTH)) with 324%nat in Hlen.
  assert (length (mjoin (replicate 81 (objectIdBytes (obj_id (object item)))))
          = 324%nat) as Hlc by (rewrite length_mjoin_replicate; reflexivity).
  unfold gl_readRenderTargetPixels. rewrite Hcol, Hw, Hh. unfold blit.
  change (Z.to_nat (4 * PIXEL_WIDTH * PIXEL_WIDTH)) with 324%nat.
  rewrite (take_ge (mjoin _)) by lia.
  rewrite take_ge by lia.
  rewrite drop_ge by lia.
  rewrite app_nil_r.
  pose proof (sampleOffset_inject _ _ _ _
                (windowOrigin_inject _ _ _ Hx) (windowOrigin_inject _ _ _ Hy))
    as Hoff.
  pose proof (sampleOffset_bounds dx dy) as Hb.
  set (m := Z.min hw (Z.max 0 (dy - hw)) * PIXEL_WIDTH
            + Z.min hw (Z.max 0 (dx - hw))) in *.
  replace (m * 4) with (4 * m) in Hoff by lia.
  unfold objectIdBytes.
  rewrite (decodeAt_pixel _ _ _ _ 81 _ m) by (try exact Hoff; lia).
  f_equal. rewrite <- decode_encode, quantize8_objectIdUniform. reflexivity.
Qed.

(** X11: when the rasteriser lets the drawn object cover the window, the
    render lists hold one item, the item passes the guard and its material
    has the uniform, then [pick] at integer device coordinates, started with
    the pass flag cleared, returns the identifier of the item read as a
    signed 32-bit integer, which is the identifier itself below [2^31]. *)
Theorem covering_object_is_picked (x y : Q) (cb : Object3D -> bool)
  (p : Picker) (item : RenderItem) (dx dy : Z) :
  paintsAll rasterize ->
  sized p ->
  isDebugPass p = false ->
  (x * pixelRatio (gl p) == inject_Z dx)%Q ->
  (y * pixelRatio (gl p) == inject_Z dy)%Q ->
  passItems p = [item] ->
  skipped cb item = false ->
  encodable p item ->
  snd (pick x y cb p) = Ok (Js.Num (Js.toInt32 (obj_id (object item)))) /\
  (0 <= obj_id (object item) < 2 ^ 31 ->
   snd (pick x y cb p) = Ok (Js.Num (obj_id (object item)))).
Proof.
  apply pick_covering_object.
Qed.


(** *** The sampled pixel and the requested pixel *)

(** X12: for an integer device coordinate [d >= 0], the column [pick]
    decodes, [min(hw, xi)], is the distance [d - xi] of the requested pixel
    from the window origin [xi] exactly when [d = 0] or [d >= 8]; for
    [0 < d < 8] it is a column to the left of the requested pixel. *)
Theorem sampled_column_vs_point (ratio x : Q) (d : Z) :
  0 <= d ->
  (x * ratio == inject_Z d)%Q ->
  let xi := windowOrigin ratio x in
  ((Js.min (inject_Z hw) xi == x * ratio - xi)%Q <-> d = 0 \/ 8 <= d) /\
  (0 < d < 8 -> (Js.min (inject_Z hw) xi < x * ratio - xi)%Q).
Proof.
  intros Hd Hx xi.
  pose proof (windowOrigin_inject ratio x d Hx) as Hxi. fold xi in Hxi.
  pose proof (min_inject hw xi _ Hxi) as Hmin.
  assert (x * ratio - xi == inject_Z (d - Z.max 0 (d - hw)))%Q as Hpt.
  { rewrite Hx, Hxi. unfold Qminus.
    rewrite <- inject_Z_opp, <- inject_Z_plus. reflexivity. }
  rewrite Hmin, Hpt. unfold hw, PIXEL_WIDTH. change (9 / 2) with 4. split.
  - rewrite inject_Z_injective. lia.
  - intros H. rewrite <- Zlt_Qlt. lia.
Qed.

(** *** The debug hash *)

Lemma toInt32_mod (z : Z) : Js.toInt32 z mod 2 ^ 32 = z mod 2 ^ 32.
Proof.
  unfold Js.toInt32. rewrite Zminus_mod_idemp_l. f_equal. lia.
Qed.

Lemma testbit_toInt32 (z i : Z) :
  0 <= i < 32 -> Z.testbit (Js.toInt32 z) i = Z.testbit z i.
Proof.
  intros Hi. rewrite <- (Z.mod_pow2_bits_low (Js.toInt32 z) 32 i) by lia.
  rewrite toInt32_mod. apply Z.mod_pow2_bits_low. lia.
Qed.

Lemma testbit_toUint32 (z i : Z) :
  0 <= i ->
  Z.testbit (Js.toUint32 z) i = (i <? 32) && Z.testbit z i.
Proof.
  intros Hi. unfold Js.toUint32. destruct (Z.ltb_spec i 32).
  - apply Z.mod_pow2_bits_low. lia.
  - apply Z.mod_pow2_bits_high. lia.
Qed.

Lemma toUint32_range (z : Z) : 0 <= Js.toUint32 z < 2 ^ 32.
Proof. apply Z.mod_pos_bound. lia. Qed.

Lemma uint32_high_bits (a i : Z) :
  0 <= a < 2 ^ 32 -> 32 <= i -> Z.testbit a i = false.
Proof.
  intros Ha Hi. rewrite <- (Z.mod_small a (2 ^ 32)) by lia.
  apply Z.mod_pow2_bits_high. lia.
Qed.

(** Two 32-bit values with the same 32 low bits are equal. *)
Lemma uint32_bits_inj (a b : Z) :
  0 <= a < 2 ^ 32 -> 0 <= b < 2 ^ 32 ->
  (forall i, 0 <= i < 32 -> Z.testbit a i = Z.testbit b i) -> a = b.
Proof.
  intros Ha Hb H. apply Z.bits_inj'. intros i Hi.
  destruct (Z.lt_ge_cases i 32).
  - apply H. lia.
  - rewrite !uint32_high_bits by lia. reflexivity.
Qed.

Lemma testbit_xorShl (k a i : Z) :
  0 <= k -> 0 <= i < 32 ->
  Z.testbit (xorShl k a) i = xorb (Z.testbit a i) (Z.testbit a (i - k)).
Proof.
  intros Hk Hi. unfold xorShl, Js.bxor, Js.shl.
  rewrite testbit_toUint32 by lia.
  destruct (Z.ltb_spec i 32); [| lia]. cbn [andb].
  rewrite Z.lxor_spec, !testbit_toInt32 by lia.
  rewrite Z.shiftl_spec by lia.
  destruct (Z.lt_ge_cases (i - k) 0).
  - rewrite !(Z.testbit_neg_r _ (i - k)) by lia. reflexivity.
  - rewrite testbit_toInt32 by lia. reflexivity.
Qed.

Lemma testbit_xorShr (k a i : Z) :
  0 <= k -> 0 <= a < 2 ^ 32 -> 0 <= i < 32 ->
  Z.testbit (xorShr k a) i = xorb (Z.testbit a i) (Z.testbit a (i + k)).
Proof.
  intros Hk Ha Hi. unfold xorShr, Js.bxor, Js.shr.
  rewrite testbit_toUint32 by lia.
  destruct (Z.ltb_spec i 32); [| lia]. cbn [andb].
  rewrite Z.lxor_spec, !testbit_toInt32 by lia.
  rewrite Z.shiftr_spec by lia.
  unfold Js.toUint32. rewrite Z.mod_small by lia. reflexivity.
Qed.

Lemma xorShl_inj (k a b : Z) :
  0 < k -> 0 <= a < 2 ^ 32 -> 0 <= b < 2 ^ 32 ->
  xorShl k a = xorShl k b -> a = b.
Proof.
  intros Hk Ha Hb H. apply uint32_bits_inj; [assumption .. |].
  assert (forall n : nat, forall i, 0 <= i < 32 -> i < Z.of_nat n ->
            Z.testbit a i = Z.testbit b i) as Hind.
  { induction n as [| n IH]; intros i Hi Hn; [lia |].
    pose proof (testbit_xorShl k a i ltac:(lia) Hi) as Ea.
    pose proof (testbit_xorShl k b i ltac:(lia) Hi) as Eb.
    rewrite H in Ea. rewrite Ea in Eb.
    destruct (Z.lt_ge_cases (i - k) 0).
    - rewrite !(Z.testbit_neg_r _ (i - k)) in Eb by lia.
      destruct (Z.testbit a i), (Z.testbit b i); cbn in Eb; congruence.
    - rewrite (IH (i - k)) in Eb by lia.
      destruct (Z.testbit a i), (Z.testbit b i), (Z.testbit b (i - k));
        cbn in Eb; congruence. }
  intros i Hi. apply (Hind 32%nat); lia.
Qed.

Lemma xorShr_inj (k a b : Z) :
  0 < k -> 0 <= a < 2 ^ 32 -> 0 <= b < 2 ^ 32 ->
  xorShr k a = xorShr k b -> a = b.
Proof.
  intros Hk Ha Hb H. apply uint32_bits_inj; [assumption .. |].
  assert (forall n : nat, forall i, 0 <= i < 32 -> 32 - i <= Z.of_nat n ->
            Z.testbit a i = Z.testbit b i) as Hind.
  { induction n as [| n IH]; intros i Hi Hn; [lia |].
    pose proof (testbit_xorShr k a i ltac:(lia) Ha Hi) as Ea.
    pose proof (testbit_xorShr k b i ltac:(lia) Hb Hi) as Eb.
    rewrite H in Ea. rewrite Ea in Eb.
    destruct (Z.lt_ge_cases (i + k) 32).
    - rewrite (IH (i + k)) in Eb by lia.
      destruct (Z.testbit a i), (Z.testbit b i), (Z.testbit b (i + k));
        cbn in Eb; congruence.
    - rewrite !(uint32_high_bits _ (i + k)) in Eb by lia.
      destruct (Z.testbit a i), (Z.testbit b i); cbn in Eb; congruence. }
  intros i Hi. apply (Hind 32%nat); lia.
Qed.

(** [A[0] -= A[0] << k] multiplies the cell by [1 - 2^k] modulo [2^32]. *)
Lemma subShl_mul (k a : Z) :
  0 <= k -> subShl k a = (a * (1 - 2 ^ k)) mod 2 ^ 32.
Proof.
  intros Hk. unfold subShl, Js.toUint32, Js.shl.
  rewrite Zminus_mod, toInt32_mod, Z.shiftl_mul_pow2 by lia.
  rewrite Zmult_mod, toInt32_mod, <- Zmult_mod, <- Zminus_mod.
  f_equal. lia.
Qed.

Lemma mul_odd_inj (c c' a b : Z) :
  (c * c') mod 2 ^ 32 = 1 ->
  0 <= a < 2 ^ 32 -> 0 <= b < 2 ^ 32 ->
  (a * c) mod 2 ^ 32 = (b * c) mod 2 ^ 32 -> a = b.
Proof.
  intros Hc Ha Hb H.
  assert (forall z, 0 <= z < 2 ^ 32 ->
            ((z * c) mod 2 ^ 32 * c') mod 2 ^ 32 = z) as Hinv.
  { intros z Hz. rewrite Zmult_mod_idemp_l, <- Z.mul_assoc.
    rewrite <- Zmult_mod_idemp_r, Hc, Z.mul_1_r. apply Z.mod_small. exact Hz. }
  rewrite <- (Hinv a Ha), <- (Hinv b Hb), H. reflexivity.
Qed.

Lemma subShl_inj (k c' a b : Z) :
  0 <= k -> ((1 - 2 ^ k) * c') mod 2 ^ 32 = 1 ->
  0 <= a < 2 ^ 32 -> 0 <= b < 2 ^ 32 ->
  subShl k a = subShl k b -> a = b.
Proof.
  intros Hk Hc Ha Hb. rewrite !subShl_mul by exact Hk.
  apply (mul_odd_inj _ c'); assumption.
Qed.

Lemma hashInt_steps (x : Z) :
  hashInt x =
  xorShr 15 (xorShl 10 (subShl 3 (xorShl 4 (subShl 9 (xorShr 17 (subShl 6
    (Js.toUint32 (Js.bor x 0)))))))).
Proof.
  unfold hashInt. cbv zeta. unfold subShl, xorShl, xorShr. apply eq_refl.
Qed.

Lemma bor_0_uint32 (x : Z) : Js.toUint32 (Js.bor x 0) = x mod 2 ^ 32.
Proof.
  unfold Js.bor. rewrite (toInt32_small 0) by lia.
  rewrite Z.lor_0_r. apply toInt32_mod.
Qed.

(** X13: [hashInt] returns a 32-bit value, reads its argument modulo
    [2^32], and gives different identifiers in [0, 2^32) different
    hashes. *)
Theorem hashInt_injective :
  (forall x, 0 <= hashInt x < 2 ^ 32) /\
  (forall x, hashInt x = hashInt (x mod 2 ^ 32)) /\
  (forall x y,
      0 <= x < 2 ^ 32 -> 0 <= y < 2 ^ 32 -> x <> y -> hashInt x <> hashInt y).
Proof.
  split; [| split].
  - intros x. rewrite hashInt_steps. apply toUint32_range.
  - intros x. rewrite !hashInt_steps, !bor_0_uint32.
    rewrite Z.mod_mod by lia. reflexivity.
  - intros x y Hx Hy Hne Heq. apply Hne. revert Heq.
    rewrite !hashInt_steps, !bor_0_uint32.
    rewrite !(Z.mod_small _ (2 ^ 32)) by assumption.
    intros H.
    apply xorShr_inj in H; [| lia | apply toUint32_range ..].
    apply xorShl_inj in H; [| lia | apply toUint32_range ..].
    apply (subShl_inj 3 1227133513) in H;
      [| lia | vm_compute; reflexivity | apply toUint32_range ..].
    apply xorShl_inj in H; [| lia | apply toUint32_range ..].
    apply (subShl_inj 9 134480385) in H;
      [| lia | vm_compute; reflexivity | apply toUint32_range ..].
    apply xorShr_inj in H; [| lia | apply toUint32_range ..].
    apply (subShl_inj 6 1090785345) in H;
      [| lia | vm_compute; reflexivity | assumption ..].
    exact H.
Qed.


(** ** The sampling window, the skipped items and the overlay pass *)









Lemma drawable_all_skipped (cb : Object3D -> bool) (l : list RenderItem) :
  Forall (fun item => skipped cb item = true) l -> drawable cb l = [].
Proof.
  induction l as [| item l IH]; intros H; [reflexivity |].
  apply Forall_cons_1 in H as [Hi Hl]. unfold drawable in *.
  rewrite filter_cons_False by congruence. apply IH, Hl.
Qed.

Lemma drawnAs_drawable (h : bool) (cb : Object3D -> bool)
  (l : list RenderItem) (calls : list DrawCall) :
  Forall2 (drawnAs h) (drawable cb l) calls ->
  Forall (fun dc => exists item,
              item ∈ l /\ skipped cb item = false /\
              dc_object dc = obj_id (object item)) calls.
Proof.
  intros H.
  assert (forall item, item ∈ drawable cb l ->
            item ∈ l /\ skipped cb item = false) as Hin.
  { intros item Hi. unfold drawable in Hi.
    apply list_elem_of_filter in Hi as [? ?]. auto. }
  revert Hin. induction H as [| item dc l' calls [Ho _] _ IH]; intros Hin.
  - constructor.
  - constructor.
    + destruct (Hin item) as [? ?]; [apply elem_of_cons; auto |].
      exists item. auto.
    + apply IH. intros i Hi. apply Hin. apply elem_of_cons. auto.
Qed.

(** C4 (amended): [processItem] returns without submitting a draw call
    exactly when the item has no geometry, or is flagged
    [picking === false], or is rejected by the active predicate, and then
    it changes nothing.  Every draw call of a [pick] that returns belongs to
    an item that passes this guard, and [pick] returns what it returns once
    the skipped items are taken out of the render lists.  When every item
    of the render lists is flagged [picking === false], [pick] returns,
    submits no draw call, and gives the value it gives over the same
    renderer with nothing in the render lists. *)
Theorem skipped_items_are_not_drawn :
  (forall (item : RenderItem) (p : Picker),
      (snd (processItem item p) = Ok tt /\
       drawCalls (gl (fst (processItem item p))) = drawCalls (gl p))
      <->
      (geometry item = None \/ obj_picking (object item) = Some false \/
       shouldPickObjectCB p (object item) = false)) /\
  (forall (item : RenderItem) (p : Picker),
      skipped (shouldPickObjectCB p) item = true ->
      processItem item p = (p, Ok tt)) /\
  (forall (x y : Q) (cb : Object3D -> bool) (p : Picker) (v : Js.number),
      snd (pick x y cb p) = Ok v ->
      exists calls,
        drawCalls (gl (fst (pick x y cb p))) = drawCalls (gl p) ++ calls /\
        Forall (fun dc => exists item,
                    item ∈ passItems p /\
                    geometry item <> None /\
                    obj_picking (object item) <> Some false /\
                    cb (object item) = true /\
                    dc_object dc = obj_id (object item)) calls) /\
  (forall (x y : Q) (cb : Object3D -> bool) (p : Picker),
      snd (pick x y cb (dropSkipped cb p)) = snd (pick x y cb p)) /\
  (forall (x y : Q) (cb : Object3D -> bool) (p : Picker),
      Forall (fun item => obj_picking (object item) = Some false) (passItems p) ->
      (exists v, snd (pick x y cb p) = Ok v) /\
      drawCalls (gl (fst (pick x y cb p))) = drawCalls (gl p) /\
      snd (pick x y cb p) = snd (pick x y cb (withoutItems p))).
Proof.
  split; [| split; [| split; [| split; [apply pick_dropSkipped |]]]].
  - intros item p. rewrite <- skipped_true. split.
    + intros [R D].
      destruct (skipped (shouldPickObjectCB p) item) eqn:S; [reflexivity |].
      exfalso. apply processItem_ok_iff in R as [C | E]; [congruence |].
      destruct (processItem_not_skipped item p S) as (geo & _ & Heq).
      rewrite Heq in D.
      destruct (encodeItem_ok item geo (objId p item) p E)
        as (p3 & r & Hp3 & _ & _ & _ & Hcalls).
      rewrite Hp3 in D. cbn [fst] in D. rewrite Hcalls in D.
      exact (app_singleton_neq _ _ D).
    + intros S. rewrite (processItem_skipped item p S). auto.
  - apply processItem_skipped.
  - intros x y cb p v R.
    destruct (pick_draws x y cb p v R) as (calls & overlay & Hc & H1 & H2).
    exists (calls ++ overlay). split; [exact Hc |].
    assert (forall h l, Forall2 (drawnAs h) (drawable cb (passItems p)) l ->
              Forall (fun dc => exists item,
                          item ∈ passItems p /\
                          geometry item <> None /\
                          obj_picking (object item) <> Some false /\
                          cb (object item) = true /\
                          dc_object dc = obj_id (object item)) l) as Hd.
    { intros h l Hl. apply drawnAs_drawable in Hl.
      eapply Forall_impl; [| exact Hl].
      intros dc (item & Hi & S & Ho). exists item.
      split; [exact Hi |].
      assert (~ (geometry item = None \/ obj_picking (object item) = Some false \/
                 cb (object item) = false)) as N.
      { intros C. apply skipped_true in C. congruence. }
      repeat split.
      - intros C. apply N. auto.
      - intros C. apply N. auto.
      - destruct (cb (object item)); [reflexivity |]. exfalso. apply N. auto.
      - exact Ho. }
    apply Forall_app. split; [exact (Hd _ _ H1) |].
    destruct (debug p); [exact (Hd _ _ H2) | subst overlay; constructor].
  - intros x y cb p Hopt.
    assert (Forall (fun item => skipped cb item = true) (passItems p)) as Hall.
    { eapply Forall_impl; [| exact Hopt].
      intros item Hi. apply skipped_true. auto. }
    assert (handleAfterRender (pickSetup x y cb p) = (pickSetup x y cb p, Ok tt))
      as R.
    { rewrite handleAfterRender_passItems.
      change (passItems (pickSetup x y cb p)) with (passItems p).
      apply forEach_all_skipped. exact Hall. }
    assert (exists v, snd (pick x y cb p) = Ok v) as [v Hv].
    { destruct (pick_ok x y cb p) as (p' & E & _); [rewrite R; reflexivity |].
      rewrite E. eauto. }
    split; [eauto |]. split.
    + destruct (pick_draws x y cb p v Hv) as (calls & overlay & Hc & H1 & H2).
      rewrite (drawable_all_skipped cb _ Hall) in *.
      apply Forall2_nil_inv_l in H1. subst calls.
      assert (overlay = []) as ->.
      { destruct (debug p); [apply Forall2_nil_inv_l in H2 |]; exact H2. }
      rewrite Hc, !app_nil_r. reflexivity.
    + rewrite !pick_result, R.
      rewrite handleAfterRender_passItems.
      change (passItems (pickSetup x y cb (withoutItems p)))
        with (@nil RenderItem).
      reflexivity.
Qed.



End PickerMethods.

(** ** The codec on the two halves of the 32-bit range *)

Lemma roundtrip_low (objId : Z) :
  0 <= objId < 2 ^ 31 ->
  decodeAt (quantize8 <$> objectIdUniform objId) 0 = Js.Num objId.
Proof.
  intros H. rewrite decode_encode, toInt32_small by lia. reflexivity.
Qed.

Lemma roundtrip_high (objId : Z) :
  2 ^ 31 <= objId < 2 ^ 32 ->
  decodeAt (quantize8 <$> objectIdUniform objId) 0 = Js.Num (objId - 2 ^ 32).
Proof.
  intros H. rewrite decode_encode, toInt32_uint32 by lia.
  destruct (Z.ltb_spec objId (2 ^ 31)); [lia | reflexivity].
Qed.

(** ** The claims on sample scenes *)

(** C1: the identifier [2^31] is encoded as the bytes [128, 0, 0, 0], which
    the colour buffer stores as they are, and [pick] decodes them to
    [-2^31]: the round trip does not give the identifier back.  The same
    holds end to end, for a mesh with that identifier that covers the
    window. *)
Theorem roundtrip_fails_at_high_bit :
  quantize8 <$> objectIdUniform 2147483648 = [128; 0; 0; 0] /\
  decodeAt (quantize8 <$> objectIdUniform 2147483648) 0 = Js.Num (-2147483648) /\
  decodeAt (quantize8 <$> objectIdUniform 2147483648) 0 <> Js.Num 2147483648 /\
  snd (pick "" "" Sample.paintAll 10 10 AlwaysPickObject
         (Sample.picker [Sample.mesh 2147483648] false))
  = Ok (Js.Num (-2147483648)).
Proof.
  split; [vm_compute; reflexivity |].
  split; [vm_compute; reflexivity |].
  split; [vm_compute; discriminate |].
  vm_compute. reflexivity.
Qed.

(** C2: on a scene without items, [pick] at the in-bounds coordinate
    [(0, 0)] returns [-1], the value the four bytes 255 of the clear colour
    decode to, and not [4294967295]. *)
Theorem empty_scene_returns_minus_one :
  snd (pick "" "" Sample.paintAll 0 0 AlwaysPickObject (Sample.picker [] false))
  = Ok (Js.Num (-1)) /\
  sentinel = Js.Num (-1) /\
  decodeAt [255; 255; 255; 255] 0 <> Js.Num 4294967295.
Proof.
  split; [vm_compute; reflexivity |].
  split; [apply sentinel_value |].
  vm_compute. discriminate.
Qed.

(** C3 (counterexample): a mesh brings a picking material without the
    [objectId] uniform; [pick] throws in the render pass and leaves the
    picking target bound, so the renderer state is not put back. *)
Lemma pick_throw_leaves_state :
  let p := Sample.picker [Sample.custom 5 0%nat] false in
  snd (pick "" "" Sample.paintAll 10 10 AlwaysPickObject p) = Throw uniformError /\
  ~ restored p (fst (pick "" "" Sample.paintAll 10 10 AlwaysPickObject p)).
Proof.
  split; [vm_compute; reflexivity |].
  intros (H & _). vm_compute in H. discriminate.
Qed.

(** C4 (counterexample): the only item of the scene is flagged
    [picking === false].  At the device coordinate [4.3] the buffer index
    is [1.2], the reads give [undefined], and [pick] returns [NaN], which
    is not the background sentinel; at the coordinate [0] it returns [-1],
    which is not [4294967295]. *)
Lemma optout_pick_is_not_sentinel :
  let p := Sample.picker [Sample.optOut 7] false in
  Forall (fun item => obj_picking (object item) = Some false) (passItems p) /\
  snd (pick "" "" Sample.paintAll (43 # 10) 0 AlwaysPickObject p) = Ok Js.NaN /\
  Js.NaN <> sentinel /\
  Js.NaN <> Js.Num 4294967295 /\
  snd (pick "" "" Sample.paintAll 0 0 AlwaysPickObject p) = Ok (Js.Num (-1)) /\
  Js.Num (-1) <> Js.Num 4294967295.
Proof.
  split; [repeat constructor |].
  split; [vm_compute; reflexivity |].
  split; [vm_compute; discriminate |].
  split; [discriminate |].
  split; [vm_compute; reflexivity |].
  discriminate.
Qed.


(** ** Instances of the conditional statements *)

Lemma paintAll_paintsAll : paintsAll Sample.paintAll.
Proof.
  intros cam geo m obj fb v H. unfold Sample.paintAll. rewrite H. reflexivity.
Qed.

Lemma skipped_items_witness :
  let p := Sample.picker [Sample.optOut 7] false in
  Forall (fun item => obj_picking (object item) = Some false) (passItems p) /\
  (exists v,
      snd (pick "" "" Sample.paintAll (43 # 10) 0 AlwaysPickObject p) = Ok v) /\
  drawCalls (gl (fst (pick "" "" Sample.paintAll (43 # 10) 0 AlwaysPickObject p)))
    = drawCalls (gl p) /\
  snd (pick "" "" Sample.paintAll (43 # 10) 0 AlwaysPickObject p) =
  snd (pick "" "" Sample.paintAll (43 # 10) 0 AlwaysPickObject (withoutItems p)).
Proof.
  assert (Forall (fun item => obj_picking (object item) = Some false)
            (passItems (Sample.picker [Sample.optOut 7] false))) as Hall
    by (repeat constructor).
  split; [exact Hall |].
  exact (proj2 (proj2 (proj2 (proj2
           (skipped_items_are_not_drawn "" "" Sample.paintAll))))
           (43 # 10)%Q 0%Q AlwaysPickObject _ Hall).
Defined.




Lemma uniform_error_witness :
  let p := Sample.picker [Sample.mesh 1; Sample.spriteItem 2] false in
  cache_ok p /\
  Forall (fun item => obj_pickingMaterial (object item) = None) (passItems p) /\
  exists v, snd (pick "" "" Sample.paintAll 10 10 AlwaysPickObject p) = Ok v.
Proof.
  assert (cache_ok (Sample.picker [Sample.mesh 1; Sample.spriteItem 2] false))
    as Hc by apply cache_ok_newPicker.
  assert (Forall (fun item => obj_pickingMaterial (object item) = None)
            (passItems (Sample.picker [Sample.mesh 1; Sample.spriteItem 2] false)))
    as Hall by (repeat constructor).
  split; [exact Hc |]. split; [exact Hall |].
  exact (proj2 (proj2 (proj2 (proj2
           (uniform_error_only_from_override "" "" Sample.paintAll))))
           10%Q 10%Q AlwaysPickObject _ Hc Hall).
Defined.

Lemma pick_reads_witness :
  let p := Sample.picker [Sample.mesh 7] false in
  let offset := sampleOffset (windowOrigin (pixelRatio (gl p)) 10)
                             (windowOrigin (pixelRatio (gl p)) 3) in
  0 <= 10 /\ 0 <= 3 /\
  (10 * pixelRatio (gl p) == inject_Z 10)%Q /\
  (3 * pixelRatio (gl p) == inject_Z 3)%Q /\
  length (pixelBuffer p) = 324%nat /\
  Js.isInteger offset = true /\
  0 <= Js.toZ offset /\ Js.toZ offset + 3 < 324.
Proof.
  assert (0 <= 10) as H10 by lia.
  assert (0 <= 3) as H3 by lia.
  pose proof (proj1 (pick_reads_in_bounds "" "" Sample.paintAll)
                10%Q 3%Q AlwaysPickObject (Sample.picker [Sample.mesh 7] false)
                10 3 H10 H3 (Qeq_refl _) (Qeq_refl _) eq_refl)
    as (Hi & Hl & Hu & _).
  repeat split; try reflexivity; assumption.
Defined.

(** ** Instances of the further properties *)

Lemma sized_witness :
  let p := Sample.picker [Sample.mesh 7] true in
  sized p /\
  sized (fst (pick "" "" Sample.paintAll 10 10 AlwaysPickObject p)).
Proof.
  assert (sized (Sample.picker [Sample.mesh 7] true)) as Hs
    by (repeat split; reflexivity).
  split; [exact Hs |].
  exact (proj1 (proj2 (sized_is_kept "" "" Sample.paintAll)
                  10%Q 10%Q AlwaysPickObject _ Hs)).
Defined.

Lemma pass_draws_witness :
  let p := Sample.picker [Sample.mesh 1; Sample.optOut 2; Sample.spriteItem 3] false in
  snd (handleAfterRender "" "" Sample.paintAll p) = Ok tt /\
  exists calls,
    drawCalls (gl (fst (handleAfterRender "" "" Sample.paintAll p))) =
      drawCalls (gl p) ++ calls /\
    Forall2 (drawnAs (isDebugPass p))
      (drawable (shouldPickObjectCB p) (passItems p)) calls.
Proof.
  assert (snd (handleAfterRender "" "" Sample.paintAll
                 (Sample.picker [Sample.mesh 1; Sample.optOut 2; Sample.spriteItem 3]
                    false)) = Ok tt) as R by (vm_compute; reflexivity).
  split; [exact R |].
  exact (pass_draws_each_item "" "" Sample.paintAll _ R).
Defined.

Lemma pick_draw_calls_witness :
  let p := Sample.picker [Sample.mesh 1; Sample.spriteItem 3] true in
  isDebugPass p = false /\
  snd (pick "" "" Sample.paintAll 10 10 AlwaysPickObject p) = Ok (Js.Num 3) /\
  exists calls overlay,
    drawCalls (gl (fst (pick "" "" Sample.paintAll 10 10 AlwaysPickObject p))) =
      drawCalls (gl p) ++ calls ++ overlay /\
    Forall2 (drawnAs false) (drawable AlwaysPickObject (passItems p)) calls /\
    Forall2 (drawnAs true) (drawable AlwaysPickObject (passItems p)) overlay.
Proof.
  assert (snd (pick "" "" Sample.paintAll 10 10 AlwaysPickObject
                 (Sample.picker [Sample.mesh 1; Sample.spriteItem 3] true))
          = Ok (Js.Num 3)) as R by (vm_compute; reflexivity).
  split; [reflexivity |]. split; [exact R |].
  exact (pick_draw_calls "" "" Sample.paintAll 10%Q 10%Q AlwaysPickObject
           (Sample.picker [Sample.mesh 1; Sample.spriteItem 3] true) (Js.Num 3)
           eq_refl R).
Defined.

Lemma cache_ok_witness :
  let p := Sample.picker [Sample.mesh 1; Sample.points 2] true in
  cache_ok p /\
  cache_ok (fst (pick "" "" Sample.paintAll 10 10 AlwaysPickObject p)).
Proof.
  assert (cache_ok (Sample.picker [Sample.mesh 1; Sample.points 2] true)) as H
    by apply cache_ok_newPicker.
  split; [exact H |].
  exact (proj1 (proj2 (cache_ok_is_kept "" "" Sample.paintAll)
                  10%Q 10%Q AlwaysPickObject _ H)).
Defined.

Lemma cache_bounded_witness :
  let p := Sample.picker [Sample.mesh 1; Sample.points 2] true in
  cache_keys_ok p /\
  cache_keys_ok (fst (pick "" "" Sample.paintAll 10 10 AlwaysPickObject p)) /\
  (size (materialCache p) <= 8)%nat.
Proof.
  pose proof (proj1 (cache_is_bounded "" "" Sample.paintAll)
                (Sample.renderer [Sample.mesh 1; Sample.points 2]) 0%nat
                (mkCamera None) (Some true) 1%nat
                (fun _ => Sample.bareMaterial) 0%nat) as H.
  pose proof (proj2 (cache_is_bounded "" "" Sample.paintAll)
                10%Q 10%Q AlwaysPickObject _ H) as (H1 & _ & _ & H4).
  split; [exact H |]. split; [exact H1 | exact H4].
Defined.

Lemma cache_distinct_witness :
  let p := Sample.picker [Sample.mesh 1; Sample.points 2] true in
  cache_fresh p /\
  cache_fresh (fst (pick "" "" Sample.paintAll 10 10 AlwaysPickObject p)).
Proof.
  pose proof (proj1 (cache_instances_distinct "" "" Sample.paintAll)
                (Sample.renderer [Sample.mesh 1; Sample.points 2]) 0%nat
                (mkCamera None) (Some true) 1%nat
                (fun _ => Sample.bareMaterial) 0%nat) as H.
  split; [exact H |].
  exact (proj1 (proj2 (cache_instances_distinct "" "" Sample.paintAll)
                  10%Q 10%Q AlwaysPickObject _ H)).
Defined.

Lemma pass_fills_cache_witness :
  let p := Sample.picker [Sample.mesh 1; Sample.optOut 3; Sample.points 2] false in
  snd (handleAfterRender "" "" Sample.paintAll p) = Ok tt /\
  dom (materialCache (fst (handleAfterRender "" "" Sample.paintAll p))) =
    dom (materialCache p) ∪ cachedKeys (shouldPickObjectCB p) (passItems p).
Proof.
  assert (snd (handleAfterRender "" "" Sample.paintAll
                 (Sample.picker [Sample.mesh 1; Sample.optOut 3; Sample.points 2]
                    false)) = Ok tt) as R by (vm_compute; reflexivity).
  split; [exact R |].
  exact (proj1 (pass_fills_cache "" "" Sample.paintAll _ R)).
Defined.

Lemma dispose_witness :
  let p := fst (pick "" "" Sample.paintAll 10 10 AlwaysPickObject
                  (Sample.picker [Sample.mesh 1] false)) in
  (exists k, materialCache p !! k = Some 0%nat) /\
  materials (fst (dispose p)) 0%nat = material_dispose (materials p 0%nat).
Proof.
  assert (exists k,
            materialCache
              (fst (pick "" "" Sample.paintAll 10 10 AlwaysPickObject
                      (Sample.picker [Sample.mesh 1] false))) !! k = Some 0%nat)
    as H by (exists 0; vm_compute; reflexivity).
  split; [exact H |].
  exact (proj1 (dispose_touches_only_cached _ 0%nat) H).
Defined.

Lemma covering_object_witness :
  let p := Sample.picker [Sample.mesh 7] false in
  sized p /\ isDebugPass p = false /\
  (10 * pixelRatio (gl p) == inject_Z 10)%Q /\
  (3 * pixelRatio (gl p) == inject_Z 3)%Q /\
  passItems p = [Sample.mesh 7] /\
  skipped AlwaysPickObject (Sample.mesh 7) = false /\
  encodable p (Sample.mesh 7) /\
  snd (pick "" "" Sample.paintAll 10 3 AlwaysPickObject p) = Ok (Js.Num 7).
Proof.
  assert (sized (Sample.picker [Sample.mesh 7] false)) as Hs
    by (repeat split; reflexivity).
  assert (encodable (Sample.picker [Sample.mesh 7] false) (Sample.mesh 7)) as He
    by exact I.
  assert (0 <= obj_id (object (Sample.mesh 7)) < 2 ^ 31) as Hid
    by (cbn; lia).
  repeat (split; [first [exact Hs | exact He | reflexivity] |]).
  exact (proj2 (covering_object_is_picked "" "" Sample.paintAll 10%Q 3%Q
                  AlwaysPickObject (Sample.picker [Sample.mesh 7] false)
                  (Sample.mesh 7) 10 3 paintAll_paintsAll Hs eq_refl
                  (Qeq_refl _) (Qeq_refl _) eq_refl eq_refl He) Hid).
Defined.

Lemma sampled_column_witness :
  0 <= 6 /\ (6 * 1 == inject_Z 6)%Q /\ 0 < 6 < 8 /\
  (Js.min (inject_Z hw) (windowOrigin 1 6) < 6 * 1 - windowOrigin 1 6)%Q.
Proof.
  assert (0 <= 6) as H0 by lia.
  assert (0 < 6 < 8) as H1 by lia.
  split; [exact H0 |]. split; [reflexivity |]. split; [exact H1 |].
  exact (proj2 (sampled_column_vs_point 1 6 6 H0 (Qeq_refl _)) H1).
Defined.

Lemma hashInt_witness :
  0 <= 1 < 2 ^ 32 /\ 0 <= 2 < 2 ^ 32 /\ 1 <> 2 /\ hashInt 1 <> hashInt 2.
Proof.
  assert (0 <= 1 < 2 ^ 32) as H1 by lia.
  assert (0 <= 2 < 2 ^ 32) as H2 by lia.
  assert (1 <> 2) as Hne by lia.
  repeat (split; [assumption |]).
  exact (proj2 (proj2 hashInt_injective) 1 2 H1 H2 Hne).
Defined.
